(** * Categories REST resource: handlers, validation, configuration

    A shallow embedding of the TypeScript sources of the Express API
    template: the category handlers (categories.handlers.ts), the zod
    schemas (categories.schema.ts), the router bindings
    (categories.routes.ts), the environment module (env.ts), the entry
    point (index.ts) with the application module it imports (app.ts), and
    the standalone Express server file.

    JavaScript strings are sequences of UTF-16 code units and are modelled
    as lists of [N].  Objects used as dictionaries (request bodies, path
    parameters, [process.env]) are finite maps with string keys. *)

From Stdlib Require Import ZArith NArith Lia Ascii String.
From stdpp Require Import gmap strings list sorting.

Local Open Scope Z_scope.

(** ** JavaScript strings *)

Module JS.

Definition jsstring : Type := list N.

(** Code units of an ASCII literal. *)
Definition lit (s : string) : jsstring :=
  (fun a => N_of_ascii a) <$> list_ascii_of_string s.

Definition hyphen : N := 45%N.

(** The character class [[a-z0-9]] of the two regular expressions. *)
Definition isLowerAlnum (c : N) : bool :=
  ((97 <=? c) && (c <=? 122) || (48 <=? c) && (c <=? 57))%N.

Definition isHyphen (c : N) : bool := (c =? hyphen)%N.

(** [s.replace(/[^a-z0-9]+/g, "-")]: a left-to-right scan; [inRun] tells
    that the hyphen of the current run of non-matching code units has
    been emitted already (the [+] is greedy, so a run is one match). *)
Fixpoint replaceNonAlnumRuns (inRun : bool) (s : jsstring) : jsstring :=
  match s with
  | [] => []
  | c :: rest =>
      if isLowerAlnum c then c :: replaceNonAlnumRuns false rest
      else if inRun then replaceNonAlnumRuns true rest
      else hyphen :: replaceNonAlnumRuns true rest
  end.

(** [s.replace(/(^-|-$)/g, '')]: without the [m] flag [^] matches at
    index 0 only and [$] at the end of the input only, so a code unit is
    removed when it is a hyphen standing first or last. *)
Fixpoint stripEdgeHyphens (atStart : bool) (s : jsstring) : jsstring :=
  match s with
  | [] => []
  | c :: rest =>
      if isHyphen c && (atStart || bool_decide (rest = []))
      then stripEdgeHyphens false rest
      else c :: stripEdgeHyphens false rest
  end.

(** ASCII-only lower-casing, the instance used to run examples. *)
Definition asciiToLowerCase (s : jsstring) : jsstring :=
  (fun c => if ((65 <=? c) && (c <=? 90))%N then (c + 32)%N else c) <$> s.

(** *** The derivation rule in the words of the specification

    Split at every code unit outside [[a-z0-9]], drop the empty pieces,
    and join what is left with single hyphens. *)

Fixpoint pieces (s : jsstring) : list jsstring :=
  match s with
  | [] => [[]]
  | c :: rest =>
      if isLowerAlnum c then
        match pieces rest with
        | w :: ws => (c :: w) :: ws
        | [] => [[c]]
        end
      else [] :: pieces rest
  end.

Definition nonEmpty (w : jsstring) : bool :=
  match w with [] => false | _ :: _ => true end.

Definition words (s : jsstring) : list jsstring :=
  List.filter nonEmpty (pieces s).

(** Every word preceded by a hyphen. *)
Fixpoint hyphenEach (ws : list jsstring) : jsstring :=
  match ws with
  | [] => []
  | w :: ws' => hyphen :: w ++ hyphenEach ws'
  end.

Definition joinHyphen (ws : list jsstring) : jsstring :=
  match ws with
  | [] => []
  | w :: ws' => w ++ hyphenEach ws'
  end.

Definition isSlugChar (c : N) : bool := isLowerAlnum c || isHyphen c.

(** No hyphen first, none last, no two in a row. *)
Definition hyphenSeparated (s : jsstring) : Prop :=
  head s ≠ Some hyphen ∧ last s ≠ Some hyphen ∧
  ∀ i, s !! i = Some hyphen → s !! S i ≠ Some hyphen.

(** A non-empty text over [[a-z0-9]]. *)
Definition alnumWord (w : jsstring) : Prop :=
  w ≠ [] ∧ Forall (λ c, isLowerAlnum c = true) w.

(** Every hyphen is followed by a code unit of [[a-z0-9]]. *)
Definition hyphensFollowed (s : jsstring) : Prop :=
  ∀ i, s !! i = Some hyphen →
       ∃ c, s !! S i = Some c ∧ isLowerAlnum c = true.

End JS.

Import JS.

(** ** Request data

    A request body is a flat JSON object: a finite map from keys to scalar
    JSON values.  Numbers are kept as integers; arrays and nested objects
    are outside the model.  An absent key reads as [undefined]. *)

Inductive JValue :=
| JNull
| JBool (b : bool)
| JNum (n : Z)
| JStr (s : jsstring).

Global Instance JValue_eq_dec : EqDecision JValue.
Proof. solve_decision. Defined.

(** JavaScript truthiness of a property read. *)
Definition truthy (v : option JValue) : bool :=
  match v with
  | None | Some JNull => false
  | Some (JBool b) => b
  | Some (JNum n) => negb (n =? 0)
  | Some (JStr s) => nonEmpty s
  end.

(** What the host provides: [String.prototype.toLowerCase] and the parser
    of ISO-8601 date-time strings of the persistence client. *)
Class Runtime := {
  toLowerCase : jsstring → jsstring;
  parseDateTime : jsstring → option Z
}.

(** [name.toLowerCase().replace(/[^a-z0-9]+/g, '-').replace(/(^-|-$)/g, '')],
    the expression shared by [createCategory] and [updateCategory]. *)
Definition slugify `{Runtime} (name : jsstring) : jsstring :=
  stripEdgeHyphens true (replaceNonAlnumRuns false (toLowerCase name)).

(** The same rule in the words of the specification. *)
Definition slugSpec `{Runtime} (name : jsstring) : jsstring :=
  joinHyphen (words (toLowerCase name)).

(** The instance used to run the model: ASCII lower-casing, and a
    date-time parser that accepts nothing. *)
Definition asciiRuntime : Runtime :=
  {| toLowerCase := asciiToLowerCase; parseDateTime := λ _, None |}.

(** ** zod schemas (categories.schema.ts) *)

Module Zod.

Inductive ZodType :=
| ZString (min : option (nat * string))   (* z.string(), .min(n, message) *)
| ZBoolean                                (* z.boolean() *)
| ZDate                                   (* z.date() *)
| ZOptional (t : ZodType)                 (* .optional() *)
| ZNullable (t : ZodType)                 (* .nullable() *)
| ZDefault (t : ZodType).                 (* .default(v) *)

Record ZodIssue := mkIssue {
  path : list string;
  issueCode : string;
  issueMessage : string
}.

Definition received (v : JValue) : string :=
  match v with
  | JNull => "null"
  | JBool _ => "boolean"
  | JNum _ => "number"
  | JStr _ => "string"
  end.

Definition invalidType (expected : string) (v : option JValue)
  : list (string * string) :=
  match v with
  | None => [("invalid_type", "Required")]
  | Some v =>
      [("invalid_type", "Expected " +:+ expected +:+ ", received " +:+ received v)]
  end.

(** Issues (code and message) of one value against one type. *)
Fixpoint check (t : ZodType) (v : option JValue) : list (string * string) :=
  match t with
  | ZString min =>
      match v with
      | Some (JStr s) =>
          match min with
          | Some (n, msg) =>
              if (length s <? n)%nat then [("too_small", msg)] else []
          | None => []
          end
      | _ => invalidType "string" v
      end
  | ZBoolean =>
      match v with
      | Some (JBool _) => []
      | _ => invalidType "boolean" v
      end
  | ZDate => invalidType "date" v
  | ZOptional t' => match v with None => [] | _ => check t' v end
  | ZNullable t' => match v with Some JNull => [] | _ => check t' v end
  | ZDefault t' => match v with None => [] | _ => check t' v end
  end.

(** The shape of a [z.object], keys in declaration order. *)
Definition Shape := list (string * ZodType).

(** [schema.safeParse(o)] for an object [o]: every key of the shape is
    checked and the issues of all of them are collected; keys outside
    the shape are ignored. *)
Definition objectIssues (shape : Shape) (o : gmap string JValue)
  : list ZodIssue :=
  flat_map (λ kt, (λ cm, mkIssue [kt.1] cm.1 cm.2) <$> check kt.2 (o !! kt.1))
           shape.

Definition omit (keys : list string) (shape : Shape) : Shape :=
  List.filter (λ kt, negb (bool_decide (kt.1 ∈ keys))) shape.

Definition partial (shape : Shape) : Shape :=
  (λ kt, (kt.1, ZOptional kt.2)) <$> shape.

End Zod.

Import Zod.

Definition CategorySchema : Shape :=
  [ ("id", ZString None);
    ("name", ZString (Some (1%nat, "Category name is required")));
    ("slug", ZString (Some (1%nat, "Slug is required")));
    ("description", ZNullable (ZOptional (ZString None)));
    ("color", ZOptional (ZString None));
    ("isActive", ZDefault ZBoolean);
    ("createdAt", ZDate);
    ("updatedAt", ZDate) ].

Definition IdParamSchema : Shape :=
  [ ("id", ZString (Some (1%nat, "Invalid ID format"))) ].

Definition CreateCategorySchema : Shape :=
  omit ["id"; "createdAt"; "updatedAt"] CategorySchema.

Definition UpdateCategorySchema : Shape :=
  partial (omit ["id"; "createdAt"; "updatedAt"] CategorySchema).

(** ** The Category model (schema.prisma) *)

Module Category.

Record t := mk {
  id : jsstring;
  name : jsstring;
  slug : jsstring;
  description : option jsstring;
  color : option jsstring;
  isActive : bool;
  createdAt : Z;
  updatedAt : Z
}.

Global Instance eq_dec : EqDecision t.
Proof. solve_decision. Defined.

End Category.

(** The table, oldest insertion first. *)
Abbreviation Store := (list Category.t).

(** ** Errors and promise outcomes *)

Record JsError := mkError { code : option string; message : string }.

Inductive Outcome (A : Type) :=
| Resolved (a : A)
| Rejected (error : JsError).
Arguments Resolved {A} a.
Arguments Rejected {A} error.

Definition typeError : JsError :=
  mkError None "req.body.name.toLowerCase is not a function".
Definition validationError : JsError :=
  mkError None "Invalid invocation: argument validation failed".
Definition uniqueViolation : JsError :=
  mkError (Some "P2002") "Unique constraint failed".
Definition recordNotFound : JsError :=
  mkError (Some "P2025") "Record to update not found".
Definition textRefused : JsError :=
  mkError None "invalid byte sequence for encoding UTF8: 0x00".

(** What a request meets outside the handler: the clock, the identifier
    generator and the failures of the database connection. *)
Record Env := mkEnv {
  now : Z;
  cuid : jsstring;
  readFault : option JsError;
  writeFault : option JsError
}.

(** ** The persistence client ([db.category])

    The operations of the generated client on the [Category] model:
    [name] and [slug] carry [@unique], [id] is the primary key, [color]
    defaults to ["#3B82F6"], [isActive] to [true], [createdAt] to [now()],
    and [updatedAt] is stamped by every write that writes a field.  The
    database stores no text that holds U+0000 and refuses the write that
    carries one. *)

Module Prisma.

(** An argument of a write as the client reads it. *)
Inductive Arg (T : Type) :=
| Absent
| Null
| Val (v : T)
| Invalid.
Arguments Absent {T}.
Arguments Null {T}.
Arguments Val {T} v.
Arguments Invalid {T}.

Definition readString (v : option JValue) : Arg jsstring :=
  match v with
  | None => Absent
  | Some JNull => Null
  | Some (JStr s) => Val s
  | Some _ => Invalid
  end.

Definition readBoolean (v : option JValue) : Arg bool :=
  match v with
  | None => Absent
  | Some JNull => Null
  | Some (JBool b) => Val b
  | Some _ => Invalid
  end.

Definition readDateTime `{Runtime} (v : option JValue) : Arg Z :=
  match v with
  | None => Absent
  | Some JNull => Null
  | Some (JStr s) =>
      match parseDateTime s with Some t => Val t | None => Invalid end
  | Some _ => Invalid
  end.

(** A column that cannot hold NULL. *)
Definition scalar {T} (a : Arg T) : option (option T) :=
  match a with
  | Absent => Some None
  | Val v => Some (Some v)
  | Null | Invalid => None
  end.

(** A column declared with [?]. *)
Definition nullable {T} (a : Arg T) : option (option (option T)) :=
  match a with
  | Absent => Some None
  | Null => Some (Some None)
  | Val v => Some (Some (Some v))
  | Invalid => None
  end.

Definition modelFields : gset string :=
  list_to_set
    ["id"; "name"; "slug"; "description"; "color"; "isActive";
     "createdAt"; "updatedAt"].

(** The [data] argument of a write, once validated by the client. *)
Record Data := mkData {
  d_id : option jsstring;
  d_name : option jsstring;
  d_slug : option jsstring;
  d_description : option (option jsstring);
  d_color : option (option jsstring);
  d_isActive : option bool;
  d_createdAt : option Z;
  d_updatedAt : option Z
}.

(** Client-side validation of [data]: [None] is a
    PrismaClientValidationError (unknown key or wrong type). *)
Definition readData `{Runtime} (data : gmap string JValue) : option Data :=
  if bool_decide (dom data ⊆ modelFields) then
    i ← scalar (readString (data !! "id"));
    n ← scalar (readString (data !! "name"));
    s ← scalar (readString (data !! "slug"));
    d ← nullable (readString (data !! "description"));
    c ← nullable (readString (data !! "color"));
    a ← scalar (readBoolean (data !! "isActive"));
    ct ← scalar (readDateTime (data !! "createdAt"));
    ut ← scalar (readDateTime (data !! "updatedAt"));
    Some (mkData i n s d c a ct ut)
  else None.

(** The row of a [create]: [name] and [slug] are required. *)
Definition newRow (env : Env) (d : Data) : option Category.t :=
  n ← d_name d;
  s ← d_slug d;
  Some {| Category.id := default (cuid env) (d_id d);
          Category.name := n;
          Category.slug := s;
          Category.description := default None (d_description d);
          Category.color := default (Some (lit "#3B82F6")) (d_color d);
          Category.isActive := default true (d_isActive d);
          Category.createdAt := default (now env) (d_createdAt d);
          Category.updatedAt := default (now env) (d_updatedAt d) |}.

(** [data] is the empty object: the write has no field to set. *)
Definition writesNothing (d : Data) : bool :=
  match d with
  | mkData None None None None None None None None => true
  | _ => false
  end.

(** [updatedAt] after an [update]: the given value, else the time of the
    write; an [update] with nothing to set writes nothing and leaves the
    stored value. *)
Definition stampOf (env : Env) (old : Category.t) (d : Data) : Z :=
  match d_updatedAt d with
  | Some t => t
  | None => if writesNothing d then Category.updatedAt old else now env
  end.

(** The row of an [update]: fields absent from [data] are kept. *)
Definition patchRow (env : Env) (old : Category.t) (d : Data) : Category.t :=
  {| Category.id := default (Category.id old) (d_id d);
     Category.name := default (Category.name old) (d_name d);
     Category.slug := default (Category.slug old) (d_slug d);
     Category.description :=
       default (Category.description old) (d_description d);
     Category.color := default (Category.color old) (d_color d);
     Category.isActive := default (Category.isActive old) (d_isActive d);
     Category.createdAt := default (Category.createdAt old) (d_createdAt d);
     Category.updatedAt := stampOf env old d |}.

Definition hasId (i : jsstring) (c : Category.t) : bool :=
  bool_decide (Category.id c = i).

Definition findById (i : jsstring) (st : Store) : option Category.t :=
  List.find (hasId i) st.

Fixpoint replaceFirst (i : jsstring) (new : Category.t) (st : Store) : Store :=
  match st with
  | [] => []
  | c :: rest =>
      if hasId i c then new :: rest else c :: replaceFirst i new rest
  end.

Fixpoint removeFirst (i : jsstring) (st : Store) : Store :=
  match st with
  | [] => []
  | c :: rest => if hasId i c then rest else c :: removeFirst i rest
  end.

(** A unique column of [row] is already taken in [st]. *)
Definition taken (row : Category.t) (st : Store) : bool :=
  existsb (λ c, bool_decide (Category.id c = Category.id row)
                || bool_decide (Category.name c = Category.name row)
                || bool_decide (Category.slug c = Category.slug row)) st.

(** A unique column written by [d] is taken by a row of [others]. *)
Definition takenBy (d : Data) (others : Store) : bool :=
  existsb (λ c, bool_decide (d_id d = Some (Category.id c))
                || bool_decide (d_name d = Some (Category.name c))
                || bool_decide (d_slug d = Some (Category.slug c))) others.

(** The text holds U+0000, which the database has no encoding for. *)
Definition holdsNul (s : jsstring) : bool := bool_decide (0%N ∈ s).

Definition nullableHoldsNul (s : option jsstring) : bool :=
  from_option holdsNul false s.

(** A text column of the row to insert holds U+0000. *)
Definition rowRefused (row : Category.t) : bool :=
  holdsNul (Category.id row)
  || holdsNul (Category.name row)
  || holdsNul (Category.slug row)
  || nullableHoldsNul (Category.description row)
  || nullableHoldsNul (Category.color row).

(** A text written by [d] holds U+0000. *)
Definition dataRefused (d : Data) : bool :=
  nullableHoldsNul (d_id d)
  || nullableHoldsNul (d_name d)
  || nullableHoldsNul (d_slug d)
  || from_option nullableHoldsNul false (d_description d)
  || from_option nullableHoldsNul false (d_color d).

Inductive SortOrder := asc | desc.

Definition byCreatedAt (o : SortOrder) : relation Category.t :=
  λ a b, match o with
         | asc => Category.createdAt a ≤ Category.createdAt b
         | desc => Category.createdAt b ≤ Category.createdAt a
         end.

Global Instance byCreatedAt_dec o : RelDecision (byCreatedAt o).
Proof. intros a b. destruct o; simpl; apply _. Defined.

(** [findMany({ where: { isActive }, orderBy: { createdAt } })] *)
Definition findMany (env : Env) (whereIsActive : bool)
    (orderByCreatedAt : SortOrder) (st : Store) : Outcome (list Category.t) :=
  match readFault env with
  | Some e => Rejected e
  | None =>
      Resolved
        (merge_sort (byCreatedAt orderByCreatedAt)
           (List.filter (λ c, bool_decide (Category.isActive c = whereIsActive)) st))
  end.

(** [findUnique({ where: { id } })]; [id] is [undefined] when the path
    carries no such parameter, which the client refuses. *)
Definition findUnique (env : Env) (id : option jsstring) (st : Store)
  : Outcome (option Category.t) :=
  match id with
  | None => Rejected validationError
  | Some i =>
      match readFault env with
      | Some e => Rejected e
      | None => Resolved (findById i st)
      end
  end.

(** [create({ data })] *)
Definition create `{Runtime} (env : Env) (data : gmap string JValue)
    (st : Store) : Outcome Category.t * Store :=
  match readData data ≫= newRow env with
  | None => (Rejected validationError, st)
  | Some row =>
      match writeFault env with
      | Some e => (Rejected e, st)
      | None =>
          if rowRefused row then (Rejected textRefused, st)
          else if taken row st then (Rejected uniqueViolation, st)
          else (Resolved row, st ++ [row])
      end
  end.

(** [update({ where: { id }, data })] *)
Definition update `{Runtime} (env : Env) (id : option jsstring)
    (data : gmap string JValue) (st : Store) : Outcome Category.t * Store :=
  match id, readData data with
  | Some i, Some d =>
      match writeFault env with
      | Some e => (Rejected e, st)
      | None =>
          if dataRefused d then (Rejected textRefused, st)
          else
            match findById i st with
            | None => (Rejected recordNotFound, st)
            | Some old =>
                if takenBy d (removeFirst i st)
                then (Rejected uniqueViolation, st)
                else let row := patchRow env old d in
                     (Resolved row, replaceFirst i row st)
            end
      end
  | _, _ => (Rejected validationError, st)
  end.

End Prisma.

(** ** Responses *)

Module StatusCodes.
Definition OK : Z := 200.
Definition CREATED : Z := 201.
Definition NOT_FOUND : Z := 404.
Definition CONFLICT : Z := 409.
Definition UNPROCESSABLE_ENTITY : Z := 422.
Definition INTERNAL_SERVER_ERROR : Z := 500.
End StatusCodes.

Inductive ResBody :=
| JCategory (category : Category.t)
| JCategories (categories : list Category.t)
| JError (error : string)
| JMessage (message : string)
| JValidationError (details : list ZodIssue).

(** [res.status(s).json(b)] *)
Record Response := res { status : Z; json : ResBody }.

Record Request := mkRequest {
  params : gmap string jsstring;
  body : gmap string JValue
}.

Definition Handler : Type := Env → Request → Store → Response * Store.

(** ** The handlers (categories.handlers.ts) *)

Section handlers.

Context `{Runtime}.

(** [req.body.slug = req.body.name.toLowerCase().replace(..).replace(..)];
    a truthy [name] that is not a string has no [toLowerCase] and the
    call throws a TypeError. *)
Definition assignSlug (b : gmap string JValue)
  : Outcome (gmap string JValue) :=
  match b !! "name" with
  | Some (JStr n) => Resolved (<["slug" := JStr (slugify n)]> b)
  | _ => Rejected typeError
  end.

Definition listCategories : Handler := λ env req st,
  match Prisma.findMany env true Prisma.desc st with
  | Resolved categories => (res StatusCodes.OK (JCategories categories), st)
  | Rejected error =>
      (res StatusCodes.INTERNAL_SERVER_ERROR
           (JError "Failed to fetch categories"), st)
  end.

(** The [catch] block of [createCategory]. *)
Definition createCategory_catch (error : JsError) : Response :=
  if bool_decide (code error = Some "P2002")
  then res StatusCodes.CONFLICT
           (JError "Category with this name or slug already exists")
  else res StatusCodes.INTERNAL_SERVER_ERROR
           (JError "Failed to create category").

(** [if (!req.body.slug && req.body.name) { req.body.slug = ... }] *)
Definition slugForCreate (b : gmap string JValue)
  : Outcome (gmap string JValue) :=
  if negb (truthy (b !! "slug")) && truthy (b !! "name")
  then assignSlug b else Resolved b.

Definition createCategory : Handler := λ env req st,
  match slugForCreate (body req) with
  | Rejected error => (createCategory_catch error, st)
  | Resolved data =>
      match Prisma.create env data st with
      | (Resolved category, st') =>
          (res StatusCodes.CREATED (JCategory category), st')
      | (Rejected error, st') => (createCategory_catch error, st')
      end
  end.

Definition getCategory : Handler := λ env req st,
  match Prisma.findUnique env (params req !! "id") st with
  | Resolved None =>
      (res StatusCodes.NOT_FOUND (JMessage "Category not found"), st)
  | Resolved (Some category) =>
      (res StatusCodes.OK (JCategory category), st)
  | Rejected error =>
      (res StatusCodes.INTERNAL_SERVER_ERROR
           (JError "Failed to fetch category"), st)
  end.

(** The [catch] block of [updateCategory]. *)
Definition updateCategory_catch (error : JsError) : Response :=
  if bool_decide (code error = Some "P2002")
  then res StatusCodes.CONFLICT
           (JError "Category with this name or slug already exists")
  else res StatusCodes.INTERNAL_SERVER_ERROR
           (JError "Failed to update category").

(** [if (req.body.name && !req.body.slug) { req.body.slug = ... }] *)
Definition slugForUpdate (b : gmap string JValue)
  : Outcome (gmap string JValue) :=
  if truthy (b !! "name") && negb (truthy (b !! "slug"))
  then assignSlug b else Resolved b.

Definition updateCategory : Handler := λ env req st,
  let id := params req !! "id" in
  match Prisma.findUnique env id st with
  | Rejected error => (updateCategory_catch error, st)
  | Resolved None =>
      (res StatusCodes.NOT_FOUND (JMessage "Category not found"), st)
  | Resolved (Some existingCategory) =>
      match slugForUpdate (body req) with
      | Rejected error => (updateCategory_catch error, st)
      | Resolved data =>
          match Prisma.update env id data st with
          | (Resolved updatedCategory, st') =>
              (res StatusCodes.OK (JCategory updatedCategory), st')
          | (Rejected error, st') => (updateCategory_catch error, st')
          end
      end
  end.

Definition deleteCategory : Handler := λ env req st,
  let id := params req !! "id" in
  match Prisma.findUnique env id st with
  | Rejected error =>
      (res StatusCodes.INTERNAL_SERVER_ERROR
           (JError "Failed to delete category"), st)
  | Resolved None =>
      (res StatusCodes.NOT_FOUND (JMessage "Category not found"), st)
  | Resolved (Some existingCategory) =>
      match Prisma.update env id {[ "isActive" := JBool false ]} st with
      | (Resolved _, st') =>
          (res StatusCodes.OK (JMessage "Category deleted successfully"), st')
      | (Rejected error, st') =>
          (res StatusCodes.INTERNAL_SERVER_ERROR
               (JError "Failed to delete category"), st')
      end
  end.

(** ** Validation middleware and routes (categories.routes.ts) *)

(** The argument of [validateRequest]: [{ params?, body? }]. *)
Record Schemas := mkSchemas {
  s_params : option Shape;
  s_body : option Shape
}.

Definition partIssues (schema : option Shape) (o : gmap string JValue)
  : list ZodIssue :=
  match schema with
  | None => []
  | Some shape => objectIssues shape o
  end.

(** The key [key] of a declared part is violated by the object [o]. *)
Definition violated (schema : option Shape) (o : gmap string JValue)
    (key : string) : Prop :=
  ∃ shape t, schema = Some shape ∧ (key, t) ∈ shape
             ∧ check t (o !! key) ≠ [].

(** Modelled from the spec: [validateRequest] of [@/lib/validation],
    whose source is not part of the repository sources at hand.  Each
    declared part is validated on its own; if any part fails the
    response is 422 with all violations and the handler is not invoked;
    otherwise the handler runs with the original request. *)
Definition validateRequest (schemas : Schemas) (next : Handler) : Handler :=
  λ env req st,
    let issues :=
      partIssues (s_params schemas) (JStr <$> params req)
      ++ partIssues (s_body schemas) (body req) in
    match issues with
    | [] => next env req st
    | _ :: _ =>
        (res StatusCodes.UNPROCESSABLE_ENTITY (JValidationError issues), st)
    end.

Inductive Method := GET | POST | PATCH | DELETE.

(** The two path patterns of the router: ["/"] and ["/:id"]. *)
Inductive RoutePath := root | byId.

Definition router (m : Method) (p : RoutePath) : option Handler :=
  match m, p with
  | GET, root => Some listCategories
  | POST, root =>
      Some (validateRequest (mkSchemas None (Some CreateCategorySchema))
                            createCategory)
  | GET, byId =>
      Some (validateRequest (mkSchemas (Some IdParamSchema) None)
                            getCategory)
  | PATCH, byId =>
      Some (validateRequest
              (mkSchemas (Some IdParamSchema) (Some UpdateCategorySchema))
              updateCategory)
  | DELETE, byId =>
      Some (validateRequest (mkSchemas (Some IdParamSchema) None)
                            deleteCategory)
  | _, _ => None
  end.

End handlers.

(** ** Environment module (env.ts) and entry point (index.ts)

    JavaScript numbers are kept abstract: [numberLit] embeds an integer
    literal and [Number] is the coercion of a string, [None] being NaN. *)

Module Startup.

Section startup.

Context {number : Type}.
Variable numberLit : Z → number.
Variable Number : jsstring → option number.

Record env := mkenv {
  NODE_ENV : jsstring;
  PORT : number;
  DATABASE_URL : jsstring;
  FRONTEND_URL : jsstring
}.

(** [error.flatten().fieldErrors]: the messages of each failing key. *)
Definition FieldErrors : Type := list (string * list string).

(** [z.coerce.number().default(5000)] *)
Definition parsePORT (v : option jsstring) : list string + number :=
  match v with
  | None => inr (numberLit 5000)
  | Some s =>
      match Number s with
      | Some n => inr n
      | None => inl ["Expected number, received nan"]
      end
  end.

(** [z.string()] *)
Definition parseString (v : option jsstring) : list string + jsstring :=
  match v with
  | None => inl ["Required"]
  | Some s => inr s
  end.

Definition errorsOf {A} (key : string) (r : list string + A) : FieldErrors :=
  match r with
  | inl messages => [(key, messages)]
  | inr _ => []
  end.

(** [EnvSchema.parse(process.env)]; the values of [process.env] are
    strings. *)
Definition EnvSchema_parse (processEnv : gmap string jsstring)
  : FieldErrors + env :=
  match parsePORT (processEnv !! "PORT"),
        parseString (processEnv !! "DATABASE_URL") with
  | inr port, inr url =>
      inr {| NODE_ENV := default (lit "development") (processEnv !! "NODE_ENV");
             PORT := port;
             DATABASE_URL := url;
             FRONTEND_URL :=
               default (lit "http://localhost:3000")
                       (processEnv !! "FRONTEND_URL") |}
  | p, u => inl (errorsOf "PORT" p ++ errorsOf "DATABASE_URL" u)
  end.







End startup.

End Startup.

(** ** The Express assembly

    Layers, statements and the stack they build.  [program] is the
    standalone server file among the sources (unnamed/part_000), which
    exports nothing and listens itself: [express()], two [app.use] calls,
    the [app.listen] call and the mount of the school router. *)

Module Assembly.

Inductive Middleware :=
| cors
| helmet
| rateLimit
| expressJson
| morgan
| routerOf (name : string).

Global Instance Middleware_eq_dec : EqDecision Middleware.
Proof. solve_decision. Defined.

Record Layer := mkLayer { mountPath : string; handle : Middleware }.

Global Instance Layer_eq_dec : EqDecision Layer.
Proof. solve_decision. Defined.

Inductive Stmt :=
| AppUse (path : string) (m : Middleware)    (* app.use([path,] m) *)
| AppListen.                                 (* app.listen(PORT, ..) *)

(** The statements of the file, top to bottom. *)
Definition program : list Stmt :=
  [ AppUse "/" cors;
    AppUse "/" expressJson;
    AppListen;
    AppUse "/api/v1" (routerOf "schoolRouter") ].

(** The middleware stack after running the statements: [app.use]
    appends a layer. *)
Fixpoint stack (p : list Stmt) : list Layer :=
  match p with
  | [] => []
  | AppUse path m :: rest => mkLayer path m :: stack rest
  | AppListen :: rest => stack rest
  end.

Definition app : list Layer := stack program.

(** The cross-cutting middleware of the specification, in its order. *)
Definition specMiddleware : list Middleware :=
  [cors; helmet; rateLimit; expressJson; morgan].

(** The assembly as the specification words it: the five middleware in
    order, then only routers, each under [/api/{resource}] for the
    resource it serves. *)
Definition asSpecified (resourceOf : string → string) (layers : list Layer)
  : Prop :=
  ∃ routers,
    layers = (mkLayer "/" <$> specMiddleware) ++ routers
    ∧ Forall (λ l, ∃ name, handle l = routerOf name
                           ∧ mountPath l = "/api/" +:+ resourceOf name)
             routers.

End Assembly.

(** ** The application module (app.ts) *)

Module App.

Import Assembly.

(** Modelled from the spec: the module [./app] that index.ts imports and
    listens on is not among the sources; what the sources show of it is
    the import and the [app.listen] call of index.ts, the registration
    [app.use("/api/categories", categoriesRouter)] of the README, step 6,
    the [/api/products] address that index.ts prints and the cors,
    helmet, express-rate-limit and morgan packages of package.json.
    Following section 4.6 of the specification: the cross-cutting
    middleware in a fixed order, CORS policy, security headers, rate
    limiting, JSON body parsing, request logging, and then each
    resource's router under its path prefix [/api/{resource}]. *)
Definition program (resources : list string) : list Stmt :=
  [ AppUse "/" cors;
    AppUse "/" helmet;
    AppUse "/" rateLimit;
    AppUse "/" expressJson;
    AppUse "/" morgan ]
  ++ ((λ resource, AppUse ("/api/" +:+ resource) (routerOf resource))
        <$> resources).

(** Modelled from the spec: the resources of the service, section 1:
    products, schools and categories. *)
Definition resources : list string := ["products"; "schools"; "categories"].

(** index.ts: the module is evaluated, then [app.listen(port, ..)]. *)
Definition entry (resources : list string) : list Stmt :=
  program resources ++ [AppListen].

Definition app : list Layer := stack (entry resources).

End App.

(** ** Vocabulary of the statements *)

(** The row a soft delete leaves behind. *)
Definition softDeleted (env : Env) (old : Category.t) : Category.t :=
  {| Category.id := Category.id old;
     Category.name := Category.name old;
     Category.slug := Category.slug old;
     Category.description := Category.description old;
     Category.color := Category.color old;
     Category.isActive := false;
     Category.createdAt := Category.createdAt old;
     Category.updatedAt := now env |}.

Definition newestFirst : relation Category.t :=
  λ a b, Category.createdAt b ≤ Category.createdAt a.

(** The row [createCategory] asks the database to insert: the body with
    its slug, as the client reads it. *)
Definition rowToCreate `{Runtime} (env : Env) (b : gmap string JValue)
  : option Category.t :=
  match slugForCreate b with
  | Resolved data => Prisma.readData data ≫= Prisma.newRow env
  | Rejected _ => None
  end.

(** ** Sample data *)

Module Sample.

Definition env1 : Env := mkEnv 100 (lit "c1") None None.
Definition env2 : Env := mkEnv 200 (lit "c2") None None.

(** [POST { "name": "Electronics" }] *)
Definition postElectronics : Request :=
  mkRequest ∅ {[ "name" := JStr (lit "Electronics") ]}.

Definition electronics : Category.t :=
  {| Category.id := lit "c1";
     Category.name := lit "Electronics";
     Category.slug := lit "electronics";
     Category.description := None;
     Category.color := Some (lit "#3B82F6");
     Category.isActive := true;
     Category.createdAt := 100;
     Category.updatedAt := 100 |}.

(** A category created with a slug of its own. *)
Definition foo : Category.t :=
  {| Category.id := lit "c1";
     Category.name := lit "Foo";
     Category.slug := lit "custom";
     Category.description := None;
     Category.color := Some (lit "#3B82F6");
     Category.isActive := true;
     Category.createdAt := 100;
     Category.updatedAt := 100 |}.

(** [PATCH /c1 { "name": "Foo" }] *)
Definition patchSameName : Request :=
  mkRequest {[ "id" := lit "c1" ]} {[ "name" := JStr (lit "Foo") ]}.

Definition fooRenamed : Category.t :=
  {| Category.id := lit "c1";
     Category.name := lit "Foo";
     Category.slug := lit "foo";
     Category.description := None;
     Category.color := Some (lit "#3B82F6");
     Category.isActive := true;
     Category.createdAt := 100;
     Category.updatedAt := 200 |}.

(** [DELETE /c1], [GET /c1] *)
Definition byIdC1 : Request := mkRequest {[ "id" := lit "c1" ]} ∅.

(** A [POST] whose name is the number 3 and whose slug is empty. *)
Definition postMalformed : Request :=
  mkRequest ∅ {[ "name" := JNum 3; "slug" := JStr [] ]}.

Definition databaseDown : JsError :=
  mkError (Some "P1001") "Can't reach database server".

Definition envDown : Env :=
  mkEnv 300 (lit "c3") (Some databaseDown) (Some databaseDown).

Definition processEnv : gmap string jsstring :=
  {[ "DATABASE_URL" := lit "postgresql://localhost:5432/db" ]}.

End Sample.

(** ** OpenAPI definitions (categories.routes.ts) *)

(** The response schemas the definitions refer to: [CategorySchema.array()],
    [CategorySchema], [ErrorSchema] and [MessageSchema]. *)
Inductive DocSchema :=
| CategoryArrayDoc
| CategoryDoc
| ErrorDoc
| MessageDoc.

(** One entry of [responses]: the status, its description and the schema
    of the [application/json] content. *)
Record ResponseDoc := mkResponseDoc {
  r_status : Z;
  r_description : string;
  r_schema : DocSchema
}.

(** The argument of one [createRoute] call. *)
Record RouteDoc := mkRouteDoc {
  doc_method : Method;
  doc_path : string;
  doc_tags : list string;
  doc_summary : string;
  doc_params : option Shape;
  doc_body : option (Shape * string);
  doc_responses : list ResponseDoc
}.

Definition categoriesOpenAPI : list RouteDoc :=
  [ mkRouteDoc GET "/api/categories" ["Categories"] "List all categories"
      None None
      [ mkResponseDoc StatusCodes.OK "List of categories" CategoryArrayDoc;
        mkResponseDoc StatusCodes.INTERNAL_SERVER_ERROR "Server error"
          ErrorDoc ];
    mkRouteDoc POST "/api/categories" ["Categories"] "Create a new category"
      None (Some (CreateCategorySchema, "Category data"))
      [ mkResponseDoc StatusCodes.CREATED "Category created" CategoryDoc;
        mkResponseDoc StatusCodes.CONFLICT "Category already exists" ErrorDoc;
        mkResponseDoc StatusCodes.UNPROCESSABLE_ENTITY "Validation error"
          ErrorDoc ];
    mkRouteDoc GET "/api/categories/{id}" ["Categories"] "Get a category by ID"
      (Some IdParamSchema) None
      [ mkResponseDoc StatusCodes.OK "Category found" CategoryDoc;
        mkResponseDoc StatusCodes.NOT_FOUND "Category not found" MessageDoc ];
    mkRouteDoc PATCH "/api/categories/{id}" ["Categories"] "Update a category"
      (Some IdParamSchema) (Some (UpdateCategorySchema, "Category updates"))
      [ mkResponseDoc StatusCodes.OK "Category updated" CategoryDoc;
        mkResponseDoc StatusCodes.NOT_FOUND "Category not found" MessageDoc;
        mkResponseDoc StatusCodes.CONFLICT "Category name/slug conflict"
          ErrorDoc ];
    mkRouteDoc DELETE "/api/categories/{id}" ["Categories"] "Delete a category"
      (Some IdParamSchema) None
      [ mkResponseDoc StatusCodes.OK "Category deleted" MessageDoc;
        mkResponseDoc StatusCodes.NOT_FOUND "Category not found" MessageDoc ] ].

(** The body of a handler's response is of the kind the schema
    describes: an array of categories, a category, an object with
    [error], an object with [message]. *)
Definition conforms (s : DocSchema) (b : ResBody) : bool :=
  match s, b with
  | CategoryArrayDoc, JCategories _ => true
  | CategoryDoc, JCategory _ => true
  | ErrorDoc, JError _ => true
  | MessageDoc, JMessage _ => true
  | _, _ => false
  end.

(** The path a route of the router has in the definitions, the router
    being mounted under [/api/categories]. *)
Definition documentedPath (p : RoutePath) : string :=
  match p with
  | root => "/api/categories"
  | byId => "/api/categories/{id}"
  end.

(** The schemas a route hands to [validateRequest]. *)
Definition schemasOf (m : Method) (p : RoutePath) : Schemas :=
  match m, p with
  | POST, root => mkSchemas None (Some CreateCategorySchema)
  | GET, byId => mkSchemas (Some IdParamSchema) None
  | PATCH, byId => mkSchemas (Some IdParamSchema) (Some UpdateCategorySchema)
  | DELETE, byId => mkSchemas (Some IdParamSchema) None
  | _, _ => mkSchemas None None
  end.

(** The handler a route ends in. *)
Definition handlerOf `{Runtime} (m : Method) (p : RoutePath) : option Handler :=
  match m, p with
  | GET, root => Some listCategories
  | POST, root => Some createCategory
  | GET, byId => Some getCategory
  | PATCH, byId => Some updateCategory
  | DELETE, byId => Some deleteCategory
  | _, _ => None
  end.

(** ** More vocabulary *)

(** The uniqueness constraints of the table: the primary key and the two
    [@unique] columns. *)
Definition consistent (st : Store) : Prop :=
  NoDup (Category.id <$> st)
  ∧ NoDup (Category.name <$> st)
  ∧ NoDup (Category.slug <$> st).

(** The keys of [CreateCategorySchema] and [UpdateCategorySchema]. *)
Definition inputKeys : gset string :=
  list_to_set ["name"; "slug"; "description"; "color"; "isActive"].

(** The row [create] builds from a body that holds the name [n] and the
    slug [s]: the other columns from the body, or their defaults. *)
Definition rowOfBody (env : Env) (n s : jsstring) (b : gmap string JValue)
  : Category.t :=
  {| Category.id := cuid env;
     Category.name := n;
     Category.slug := s;
     Category.description :=
       match b !! "description" with Some (JStr d) => Some d | _ => None end;
     Category.color :=
       match b !! "color" with
       | Some (JStr c) => Some c
       | _ => Some (lit "#3B82F6")
       end;
     Category.isActive :=
       match b !! "isActive" with Some (JBool a) => a | _ => true end;
     Category.createdAt := now env;
     Category.updatedAt := now env |}.

(** The answers that go with a change of the table. *)
Definition succeeded (r : Response) : bool :=
  bool_decide (status r = StatusCodes.OK)
  || bool_decide (status r = StatusCodes.CREATED).

(** The readings of a key of a body: a string, a string or [null], a
    boolean; [None] when the key holds nothing of the kind. *)
Definition textOf (v : option JValue) : option jsstring :=
  match v with Some (JStr s) => Some s | _ => None end.

Definition nullableTextOf (v : option JValue) : option (option jsstring) :=
  match v with
  | Some (JStr s) => Some (Some s)
  | Some JNull => Some None
  | _ => None
  end.

Definition boolOf (v : option JValue) : option bool :=
  match v with Some (JBool b) => Some b | _ => None end.

(** ** More sample data *)

Module Catalog.

Definition env3 : Env := mkEnv 300 (lit "c3") None None.

Definition books : Category.t :=
  {| Category.id := lit "c2";
     Category.name := lit "Books";
     Category.slug := lit "books";
     Category.description := None;
     Category.color := Some (lit "#3B82F6");
     Category.isActive := true;
     Category.createdAt := 200;
     Category.updatedAt := 200 |}.

Definition twoRows : Store := [Sample.electronics; books].

(** [POST { "name": "Books", "slug": "books" }] *)
Definition postBooks : Request :=
  mkRequest ∅ {[ "name" := JStr (lit "Books"); "slug" := JStr (lit "books") ]}.

(** [PATCH /c1 { "name": "Books" }] *)
Definition patchToBooks : Request :=
  mkRequest {[ "id" := lit "c1" ]} {[ "name" := JStr (lit "Books") ]}.

(** [PATCH /c1 { "description": "Devices" }] *)
Definition patchDescription : Request :=
  mkRequest {[ "id" := lit "c1" ]}
            {[ "description" := JStr (lit "Devices") ]}.

Definition electronicsDescribed : Category.t :=
  {| Category.id := lit "c1";
     Category.name := lit "Electronics";
     Category.slug := lit "electronics";
     Category.description := Some (lit "Devices");
     Category.color := Some (lit "#3B82F6");
     Category.isActive := true;
     Category.createdAt := 100;
     Category.updatedAt := 200 |}.

(** [GET /c9] *)
Definition byIdC9 : Request := mkRequest {[ "id" := lit "c9" ]} ∅.

(** The definition of the POST route. *)
Definition postDoc : RouteDoc :=
  mkRouteDoc POST "/api/categories" ["Categories"] "Create a new category"
    None (Some (CreateCategorySchema, "Category data"))
    [ mkResponseDoc StatusCodes.CREATED "Category created" CategoryDoc;
      mkResponseDoc StatusCodes.CONFLICT "Category already exists" ErrorDoc;
      mkResponseDoc StatusCodes.UNPROCESSABLE_ENTITY "Validation error"
        ErrorDoc ].

End Catalog.


(** * Lemmas *)

(** ** The two replacements and the words of a text *)

Section slug_facts.

Lemma alnum_not_hyphen c : isLowerAlnum c = true → isHyphen c = false.
Proof.
  unfold isLowerAlnum, isHyphen, hyphen. intros H.
  apply N.eqb_neq. intros ->. vm_compute in H. discriminate.
Qed.

Lemma pieces_cons s : ∃ w ws, pieces s = w :: ws.
Proof.
  induction s as [|c r (w & ws & E)]; simpl; [by eauto|].
  destruct (isLowerAlnum c); rewrite ?E; eauto.
Qed.

(** Past the start, in the middle of the text. *)
Lemma strip_mid s w ws :
  pieces s = w :: ws →
  stripEdgeHyphens false (replaceNonAlnumRuns false s)
    = w ++ hyphenEach (List.filter nonEmpty ws)
  ∧ stripEdgeHyphens false (hyphen :: replaceNonAlnumRuns true s)
    = hyphenEach (words s).
Proof.
  revert w ws. induction s as [|c r IH]; intros w ws E.
  - simpl in E. injection E as <- <-. by vm_compute.
  - destruct (pieces_cons r) as (w0 & ws0 & E0).
    destruct (IH _ _ E0) as [IH1 IH2].
    unfold words in *. simpl in E |- *.
    destruct (isLowerAlnum c) eqn:Hc.
    + rewrite E0 in E |- *. injection E as <- <-.
      simpl. rewrite (alnum_not_hyphen _ Hc). simpl.
      rewrite IH1. done.
    + injection E as <- <-. simpl in IH2 |- *.
      split; [exact IH2|]. exact IH2.
Qed.

Lemma strip_after_leading_run s :
  stripEdgeHyphens false (replaceNonAlnumRuns true s) = joinHyphen (words s).
Proof.
  induction s as [|c r IH]; [done|].
  unfold words in *. simpl.
  destruct (isLowerAlnum c) eqn:Hc.
  - destruct (pieces_cons r) as (w0 & ws0 & E0).
    rewrite E0. simpl. rewrite (alnum_not_hyphen _ Hc). simpl.
    by rewrite (proj1 (strip_mid r _ _ E0)).
  - simpl. exact IH.
Qed.

(** The two replacements compute the join of the words. *)
Lemma replace_chain_words s :
  stripEdgeHyphens true (replaceNonAlnumRuns false s) = joinHyphen (words s).
Proof.
  destruct s as [|c r]; [done|].
  unfold words. simpl.
  destruct (isLowerAlnum c) eqn:Hc.
  - destruct (pieces_cons r) as (w0 & ws0 & E0).
    rewrite E0. simpl. rewrite (alnum_not_hyphen _ Hc). simpl.
    by rewrite (proj1 (strip_mid r _ _ E0)).
  - simpl. apply strip_after_leading_run.
Qed.

End slug_facts.

(** ** Shape of a hyphen-joined list of words *)

Section joined_words.

Lemma hyphen_not_alnum : isLowerAlnum hyphen = false.
Proof. reflexivity. Qed.

Lemma pieces_alnum s : Forall (Forall (λ c, isLowerAlnum c = true)) (pieces s).
Proof.
  induction s as [|c r IH]; simpl.
  - repeat constructor.
  - destruct (isLowerAlnum c) eqn:Hc.
    + destruct (pieces r) as [|w ws]; [repeat constructor; done|].
      inversion IH; subst. constructor; [by constructor|done].
    + by constructor.
Qed.

Lemma words_alnum s : Forall alnumWord (words s).
Proof.
  unfold words. pose proof (pieces_alnum s) as H.
  induction H as [|w ws Hw _ IH]; simpl; [constructor|].
  destruct w as [|c w]; simpl; [exact IH|].
  constructor; [|exact IH]. split; [done|exact Hw].
Qed.

Lemma followed_cons_alnum c s :
  isLowerAlnum c = true → hyphensFollowed s → hyphensFollowed (c :: s).
Proof.
  intros Hc Hs [|i] Hi; simpl in *.
  - injection Hi as ->. by rewrite hyphen_not_alnum in Hc.
  - by apply Hs.
Qed.

Lemma followed_app_alnum w s :
  Forall (λ c, isLowerAlnum c = true) w →
  hyphensFollowed s → hyphensFollowed (w ++ s).
Proof.
  induction 1 as [|c w Hc _ IH]; intros Hs; simpl; [done|].
  apply followed_cons_alnum; auto.
Qed.

Lemma followed_hyphenEach ws :
  Forall alnumWord ws → hyphensFollowed (hyphenEach ws).
Proof.
  induction 1 as [|w ws [Hne Hw] _ IH]; simpl.
  - intros [|i] Hi; discriminate Hi.
  - destruct w as [|c w]; [done|]. inversion Hw; subst.
    intros [|i] Hi; simpl in *.
    + eauto.
    + apply (followed_app_alnum (c :: w) _ Hw IH i Hi).
Qed.

Lemma followed_joinHyphen ws :
  Forall alnumWord ws → hyphensFollowed (joinHyphen ws).
Proof.
  destruct 1 as [|w ws [_ Hw] Hws]; simpl.
  - intros [|i] Hi; discriminate Hi.
  - apply followed_app_alnum; [done|]. by apply followed_hyphenEach.
Qed.

Lemma head_joinHyphen ws :
  Forall alnumWord ws → head (joinHyphen ws) ≠ Some hyphen.
Proof.
  destruct 1 as [|w ws [Hne Hw] _]; simpl; [done|].
  destruct w as [|c w]; [done|]. inversion Hw; subst. simpl.
  intros [= ->]. by rewrite hyphen_not_alnum in *.
Qed.

Lemma followed_last s : hyphensFollowed s → last s ≠ Some hyphen.
Proof.
  intros Hs Hl. rewrite last_lookup in Hl.
  destruct (Hs _ Hl) as (c & Hc & _).
  apply lookup_lt_Some in Hc. apply lookup_lt_Some in Hl. lia.
Qed.

Lemma followed_no_double s i :
  hyphensFollowed s → s !! i = Some hyphen → s !! S i ≠ Some hyphen.
Proof.
  intros Hs Hi Hn. destruct (Hs _ Hi) as (c & Hc & Ha).
  rewrite Hn in Hc. injection Hc as <-. by rewrite hyphen_not_alnum in Ha.
Qed.

Lemma joinHyphen_separated ws :
  Forall alnumWord ws → hyphenSeparated (joinHyphen ws).
Proof.
  intros H. pose proof (followed_joinHyphen _ H) as Hf.
  split; [by apply head_joinHyphen|].
  split; [by apply followed_last|].
  intros i. by apply followed_no_double.
Qed.

Lemma hyphenEach_slug_chars ws :
  Forall alnumWord ws → Forall (λ c, isSlugChar c = true) (hyphenEach ws).
Proof.
  induction 1 as [|w ws [_ Hw] _ IH]; simpl; [constructor|].
  constructor; [done|]. apply Forall_app. split; [|done].
  eapply Forall_impl; [exact Hw|]. intros c Hc. unfold isSlugChar.
  by rewrite Hc.
Qed.

Lemma joinHyphen_slug_chars ws :
  Forall alnumWord ws → Forall (λ c, isSlugChar c = true) (joinHyphen ws).
Proof.
  destruct 1 as [|w ws [_ Hw] Hws]; simpl; [constructor|].
  apply Forall_app. split; [|by apply hyphenEach_slug_chars].
  eapply Forall_impl; [exact Hw|]. intros c Hc. unfold isSlugChar.
  by rewrite Hc.
Qed.

(** Splitting a join gives the words back. *)
Lemma pieces_app_alnum w s w0 ws0 :
  Forall (λ c, isLowerAlnum c = true) w →
  pieces s = w0 :: ws0 → pieces (w ++ s) = (w ++ w0) :: ws0.
Proof.
  induction 1 as [|c w Hc _ IH]; intros E; simpl; [done|].
  by rewrite Hc, (IH E).
Qed.

Lemma pieces_hyphenEach ws :
  Forall alnumWord ws → pieces (hyphenEach ws) = [] :: ws.
Proof.
  induction 1 as [|w ws [_ Hw] _ IH]; simpl; [done|].
  by rewrite (pieces_app_alnum _ _ _ _ Hw IH), app_nil_r.
Qed.

Lemma filter_nonEmpty_words ws :
  Forall alnumWord ws → List.filter nonEmpty ws = ws.
Proof.
  induction 1 as [|w ws [Hne _] _ IH]; simpl; [done|].
  destruct w; [done|]. simpl. by rewrite IH.
Qed.

Lemma words_joinHyphen ws :
  Forall alnumWord ws → words (joinHyphen ws) = ws.
Proof.
  intros H. destruct H as [|w ws [Hne Hw] Hws]; [done|].
  unfold words. simpl.
  rewrite (pieces_app_alnum _ _ _ _ Hw (pieces_hyphenEach _ Hws)), app_nil_r.
  apply (filter_nonEmpty_words (w :: ws)). by constructor.
Qed.

End joined_words.

(** ** The derivation rule *)

Section slug_rule.

Context `{Runtime}.

Lemma slugify_slugSpec n : slugify n = slugSpec n.
Proof. apply replace_chain_words. Qed.

Lemma slugify_separated n : hyphenSeparated (slugify n).
Proof.
  rewrite slugify_slugSpec. apply joinHyphen_separated, words_alnum.
Qed.

Lemma slugify_slug_chars n : Forall (λ c, isSlugChar c = true) (slugify n).
Proof.
  rewrite slugify_slugSpec. apply joinHyphen_slug_chars, words_alnum.
Qed.

Lemma slugify_fixpoint n :
  toLowerCase (slugify n) = slugify n → slugify (slugify n) = slugify n.
Proof.
  intros Hl. rewrite (slugify_slugSpec (slugify n)). unfold slugSpec at 1.
  rewrite Hl, (slugify_slugSpec n). unfold slugSpec.
  by rewrite words_joinHyphen by apply words_alnum.
Qed.

End slug_rule.

Lemma asciiToLowerCase_slug_chars t :
  Forall (λ c, isSlugChar c = true) t → asciiToLowerCase t = t.
Proof.
  unfold asciiToLowerCase. induction 1 as [|c t Hc _ IH]; [done|].
  rewrite fmap_cons, IH. f_equal.
  unfold isSlugChar, isLowerAlnum, isHyphen, hyphen in Hc.
  destruct ((65 <=? c) && (c <=? 90))%N eqn:E; [|done]. exfalso.
  apply andb_true_iff in E as [E1 E2].
  apply N.leb_le in E1, E2.
  apply orb_true_iff in Hc as [Hc|Hc].
  - apply orb_true_iff in Hc as [Hc|Hc];
      apply andb_true_iff in Hc as [H1 H2];
      apply N.leb_le in H1, H2; lia.
  - apply N.eqb_eq in Hc. lia.
Qed.

(** ** The persistence client *)

Section prisma_facts.

Context `{Runtime}.

Import Prisma.

Lemma scalar_readString_inv v o :
  scalar (readString v) = Some o →
  match o with Some s => v = Some (JStr s) | None => v = None end.
Proof. destruct v as [[]|]; simpl; intros ?; by simplify_eq. Qed.

Lemma readData_name data d n :
  readData data = Some d → d_name d = Some n → data !! "name" = Some (JStr n).
Proof.
  unfold readData. case_bool_decide; [|done]. intros Hd Hn.
  destruct (scalar (readString (data !! "name"))) as [o|] eqn:E;
    simplify_option_eq.
  apply scalar_readString_inv in E. by simplify_eq/=.
Qed.

Lemma readData_slug data d :
  readData data = Some d →
  match d_slug d with
  | Some s => data !! "slug" = Some (JStr s)
  | None => data !! "slug" = None
  end.
Proof.
  unfold readData. case_bool_decide; [|done]. intros Hd.
  destruct (scalar (readString (data !! "slug"))) as [o|] eqn:E;
    simplify_option_eq.
  by apply scalar_readString_inv in E.
Qed.

(** What a successful [create] has done. *)
Lemma create_resolved env data st c st' :
  create env data st = (Resolved c, st') →
  ∃ d, readData data = Some d ∧ newRow env d = Some c
       ∧ writeFault env = None ∧ taken c st = false ∧ st' = st ++ [c].
Proof.
  unfold create.
  destruct (readData data) as [d|] eqn:Ed; simpl; [|done].
  destruct (newRow env d) as [row|] eqn:Er; [|done].
  destruct (writeFault env); [done|].
  destruct (rowRefused row); [done|].
  destruct (taken row st) eqn:Et; [done|].
  intros [= <- <-]. eauto 10.
Qed.

(** What [create] does with a row on a reachable database. *)
Lemma create_reachable env data st row :
  readData data ≫= newRow env = Some row →
  writeFault env = None →
  create env data st
  = if rowRefused row then (Rejected textRefused, st)
    else if taken row st then (Rejected uniqueViolation, st)
    else (Resolved row, st ++ [row]).
Proof. intros Hr Hw. unfold create. by rewrite Hr, Hw. Qed.

Lemma create_resolved_slug env data st c st' :
  create env data st = (Resolved c, st') →
  data !! "slug" = Some (JStr (Category.slug c)).
Proof.
  intros (d & Hd & Hr & _)%create_resolved.
  pose proof (readData_slug _ _ Hd) as Hs.
  unfold newRow in Hr. destruct (d_name d); [|done].
  destruct (d_slug d); [|done]. by simplify_eq/=.
Qed.

Lemma create_resolved_name env data st c st' :
  create env data st = (Resolved c, st') →
  data !! "name" = Some (JStr (Category.name c)).
Proof.
  intros (d & Hd & Hr & _)%create_resolved.
  unfold newRow in Hr. destruct (d_name d) as [n|] eqn:En; [|done].
  destruct (d_slug d); [|done]. simplify_eq/=.
  by apply (readData_name _ _ _ Hd).
Qed.

(** A rejected [create] leaves the table alone. *)
Lemma create_rejected env data st e st' :
  create env data st = (Rejected e, st') → st' = st.
Proof.
  unfold create. destruct (readData data ≫= newRow env); [|by intros [= <- <-]].
  destruct (writeFault env); [by intros [= <- <-]|].
  destruct (rowRefused _); [by intros [= <- <-]|].
  destruct (taken _ st); by intros [= <-].
Qed.

Lemma taken_app_last row st c :
  Category.name row = Category.name c ∨ Category.slug row = Category.slug c →
  taken row (st ++ [c]) = true.
Proof.
  intros Hc. unfold taken. rewrite existsb_app. apply orb_true_iff. right.
  simpl. rewrite orb_false_r.
  destruct Hc as [E|E].
  - rewrite (bool_decide_eq_true_2 (Category.name c = Category.name row))
      by done. by rewrite orb_true_r.
  - rewrite (bool_decide_eq_true_2 (Category.slug c = Category.slug row))
      by done. by rewrite orb_true_r.
Qed.

End prisma_facts.

(** ** Creating a category *)

Section create_facts.

Context `{Runtime}.

Lemma createCategory_catch_not_created e c :
  createCategory_catch e ≠ res StatusCodes.CREATED (JCategory c).
Proof. unfold createCategory_catch. case_bool_decide; done. Qed.

(** A 201 comes from a resolved [create] on the body with its slug. *)
Lemma createCategory_created env req st c st' :
  createCategory env req st = (res StatusCodes.CREATED (JCategory c), st') →
  ∃ data, slugForCreate (body req) = Resolved data
          ∧ Prisma.create env data st = (Resolved c, st').
Proof.
  unfold createCategory.
  destruct (slugForCreate (body req)) as [data|e].
  - destruct (Prisma.create env data st) as [[c'|e] st1] eqn:Ec.
    + intros [= -> ->]. eauto.
    + intros [= Hr _]. by apply createCategory_catch_not_created in Hr.
  - intros [= Hr _]. by apply createCategory_catch_not_created in Hr.
Qed.

Lemma createCategory_created_slug env req st c st' data :
  slugForCreate (body req) = Resolved data →
  createCategory env req st = (res StatusCodes.CREATED (JCategory c), st') →
  data !! "slug" = Some (JStr (Category.slug c))
  ∧ data !! "name" = Some (JStr (Category.name c))
  ∧ st' = st ++ [c].
Proof.
  intros Hd (data' & Hd' & Hc)%createCategory_created.
  rewrite Hd in Hd'. injection Hd' as <-.
  split; [by eapply create_resolved_slug|].
  split; [by eapply create_resolved_name|].
  by apply create_resolved in Hc as (? & _ & _ & _ & _ & ->).
Qed.

End create_facts.

(** ** Updating, deleting, reading *)

Section update_facts.

Context `{Runtime}.

Import Prisma.

Lemma update_resolved env id data st c st' :
  update env id data st = (Resolved c, st') →
  ∃ i d old, id = Some i ∧ readData data = Some d ∧ writeFault env = None
             ∧ findById i st = Some old
             ∧ takenBy d (removeFirst i st) = false
             ∧ c = patchRow env old d ∧ st' = replaceFirst i c st.
Proof.
  unfold update. destruct id as [i|]; [|done].
  destruct (readData data) as [d|] eqn:Ed; [|done].
  destruct (writeFault env) eqn:Ew; [done|].
  destruct (dataRefused d); [done|].
  destruct (findById i st) as [old|] eqn:Ef; [|done].
  destruct (takenBy d (removeFirst i st)) eqn:Et; [done|].
  intros [= <- <-]. exists i, d, old. repeat split; auto.
Qed.

Lemma update_rejected env id data st e st' :
  update env id data st = (Rejected e, st') → st' = st.
Proof.
  unfold update. destruct id as [i|]; [|by intros [= _ <-]].
  destruct (readData data) as [d|]; [|by intros [= _ <-]].
  destruct (writeFault env); [by intros [= _ <-]|].
  destruct (dataRefused d); [by intros [= _ <-]|].
  destruct (findById i st) as [old|]; [|by intros [= _ <-]].
  destruct (takenBy d (removeFirst i st)); [by intros [= _ <-]|done].
Qed.

Lemma findUnique_resolved env id st o :
  findUnique env id st = Resolved o →
  ∃ i, id = Some i ∧ readFault env = None ∧ o = findById i st.
Proof.
  unfold findUnique. destruct id as [i|]; [|done].
  destruct (readFault env); [done|]. intros [= <-]. eauto.
Qed.

Lemma findUnique_no_fault env i st :
  readFault env = None → findUnique env (Some i) st = Resolved (findById i st).
Proof. intros Hf. unfold findUnique. by rewrite Hf. Qed.

Lemma updateCategory_catch_not_ok e c :
  updateCategory_catch e ≠ res StatusCodes.OK (JCategory c).
Proof. unfold updateCategory_catch. case_bool_decide; done. Qed.

(** A 200 of [updateCategory] comes from a resolved [update]. *)
Lemma updateCategory_ok env req st c st' :
  updateCategory env req st = (res StatusCodes.OK (JCategory c), st') →
  ∃ old data,
    findUnique env (params req !! "id") st = Resolved (Some old)
    ∧ slugForUpdate (body req) = Resolved data
    ∧ update env (params req !! "id") data st = (Resolved c, st').
Proof.
  unfold updateCategory.
  destruct (findUnique env (params req !! "id") st) as [[old|]|e].
  - destruct (slugForUpdate (body req)) as [data|e].
    + destruct (update env (params req !! "id") data st)
        as [[c'|e] st1] eqn:Eu.
      * intros [= -> ->]. eauto.
      * intros [= Hr _]. by apply updateCategory_catch_not_ok in Hr.
    + intros [= Hr _]. by apply updateCategory_catch_not_ok in Hr.
  - done.
  - intros [= Hr _]. by apply updateCategory_catch_not_ok in Hr.
Qed.

Lemma assignSlug_resolved b data :
  assignSlug b = Resolved data →
  ∃ n, b !! "name" = Some (JStr n) ∧ data = <["slug" := JStr (slugify n)]> b.
Proof.
  unfold assignSlug. destruct (b !! "name") as [[]|]; try done.
  intros [= <-]. eauto.
Qed.

(** The soft-delete write. *)
Lemma readData_isActive_false :
  readData {[ "isActive" := JBool false ]}
  = Some (mkData None None None None None (Some false) None None).
Proof. by vm_compute. Qed.

Lemma takenBy_no_unique d others :
  d_id d = None → d_name d = None → d_slug d = None →
  takenBy d others = false.
Proof.
  intros Hi Hn Hs. unfold takenBy. rewrite Hi, Hn, Hs.
  induction others as [|c r IH]; [done|]. cbn [existsb]. rewrite IH.
  by rewrite !bool_decide_eq_false_2.
Qed.

Lemma findById_replaceFirst i new st old :
  findById i st = Some old → Category.id new = i →
  findById i (replaceFirst i new st) = Some new.
Proof.
  unfold findById. intros Hf Hn.
  induction st as [|c r IH]; simpl in *; [done|].
  destruct (hasId i c) eqn:Ec; simpl.
  - unfold hasId. by rewrite bool_decide_eq_true_2.
  - rewrite Ec. by apply IH.
Qed.

Lemma findById_replaceFirst_ne i j new st :
  i ≠ j → Category.id new = i →
  findById j (replaceFirst i new st) = findById j st.
Proof.
  unfold findById. intros Hne Hn.
  induction st as [|c r IH]; simpl; [done|].
  destruct (hasId i c) eqn:Ec; simpl.
  - unfold hasId in *. apply bool_decide_eq_true_1 in Ec.
    rewrite !bool_decide_eq_false_2 by congruence. done.
  - by rewrite IH.
Qed.

Lemma length_replaceFirst i new (st : Store) :
  length (replaceFirst i new st) = length st.
Proof.
  induction st as [|c r IH]; simpl; [done|].
  destruct (hasId i c); simpl; by rewrite ?IH.
Qed.

Lemma findById_id i (st : Store) c :
  findById i st = Some c → Category.id c = i.
Proof.
  unfold findById. intros (_ & Hc)%find_some.
  unfold hasId in Hc. by apply bool_decide_eq_true_1 in Hc.
Qed.

(** [deleteCategory] on a table that holds the identifier. *)
Lemma deleteCategory_present env req st i old :
  params req !! "id" = Some i →
  readFault env = None → writeFault env = None →
  findById i st = Some old →
  deleteCategory env req st
  = (res StatusCodes.OK (JMessage "Category deleted successfully"),
     replaceFirst i (softDeleted env old) st).
Proof.
  intros Hi Hr Hw Hf. unfold deleteCategory.
  rewrite Hi, (findUnique_no_fault _ _ _ Hr), Hf.
  unfold update. rewrite readData_isActive_false, Hw. simpl. rewrite Hf.
  by rewrite takenBy_no_unique.
Qed.

Lemma deleteCategory_absent env req st i :
  params req !! "id" = Some i →
  readFault env = None →
  findById i st = None →
  deleteCategory env req st
  = (res StatusCodes.NOT_FOUND (JMessage "Category not found"), st).
Proof.
  intros Hi Hr Hf. unfold deleteCategory.
  by rewrite Hi, (findUnique_no_fault _ _ _ Hr), Hf.
Qed.

Lemma getCategory_present env req st i c :
  params req !! "id" = Some i →
  readFault env = None →
  findById i st = Some c →
  getCategory env req st = (res StatusCodes.OK (JCategory c), st).
Proof.
  intros Hi Hr Hf. unfold getCategory.
  by rewrite Hi, (findUnique_no_fault _ _ _ Hr), Hf.
Qed.

End update_facts.

(** ** Listing *)

Section list_facts.

Import Prisma.

Local Instance byCreatedAt_trans o : Transitive (byCreatedAt o).
Proof. intros a b c. destruct o; simpl; lia. Qed.

Local Instance byCreatedAt_total o : Total (byCreatedAt o).
Proof. intros a b. destruct o; simpl; lia. Qed.

Lemma findMany_resolved env w o st :
  readFault env = None →
  ∃ cs, findMany env w o st = Resolved cs
        ∧ StronglySorted (byCreatedAt o) cs
        ∧ cs ≡ₚ List.filter (λ c, bool_decide (Category.isActive c = w)) st.
Proof.
  intros Hf. unfold findMany. rewrite Hf. eexists. split; [done|]. split.
  - apply StronglySorted_merge_sort; apply _.
  - apply merge_sort_Permutation.
Qed.

End list_facts.

(** ** Validation *)

Section validation_facts.

Lemma objectIssues_complete shape o key t :
  (key, t) ∈ shape → check t (o !! key) ≠ [] →
  ∃ issue, issue ∈ objectIssues shape o ∧ path issue = [key].
Proof.
  intros Hin Hne. destruct (check t (o !! key)) as [|cm cms] eqn:Ec; [done|].
  exists (mkIssue [key] cm.1 cm.2). split; [|done].
  unfold objectIssues. apply list_elem_of_In, in_flat_map.
  exists (key, t). split; [by apply list_elem_of_In|].
  apply list_elem_of_In. simpl. rewrite Ec. apply list_elem_of_fmap.
  exists cm. split; [done|]. by left.
Qed.

Lemma objectIssues_sound shape o issue :
  issue ∈ objectIssues shape o →
  ∃ key t, (key, t) ∈ shape ∧ path issue = [key]
           ∧ check t (o !! key) ≠ [].
Proof.
  unfold objectIssues. intros Hi%list_elem_of_In.
  apply in_flat_map in Hi as ([key t] & Hin & Hi).
  apply list_elem_of_In, list_elem_of_fmap in Hi as (cm & -> & Hcm).
  exists key, t. split; [by apply list_elem_of_In|]. split; [done|].
  simpl in Hcm. intros E. rewrite E in Hcm. by apply not_elem_of_nil in Hcm.
Qed.

End validation_facts.

(** ** The POST route and the environment schema *)

Section route_facts.

Context `{Runtime}.

(** [CreateCategorySchema] keeps [slug] required: a creation without a
    slug is stopped by the middleware of the POST route and does not
    reach [createCategory]. *)
Lemma post_route_requires_slug env req st :
  body req !! "slug" = None →
  ∃ handler details,
    router POST root = Some handler
    ∧ handler env req st
      = (res StatusCodes.UNPROCESSABLE_ENTITY (JValidationError details), st)
    ∧ mkIssue ["slug"] "invalid_type" "Required" ∈ details.
Proof.
  intros Hs.
  assert (mkIssue ["slug"] "invalid_type" "Required"
            ∈ objectIssues CreateCategorySchema (body req)) as Hin.
  { unfold objectIssues. apply list_elem_of_In, in_flat_map.
    exists ("slug", ZString (Some (1%nat, "Slug is required"))).
    split; [vm_compute; tauto|]. simpl. rewrite Hs. simpl. by left. }
  eexists _, _. split; [reflexivity|]. split; [|exact Hin].
  unfold validateRequest, partIssues. cbn [s_params s_body app].
  destruct (objectIssues CreateCategorySchema (body req));
    [by apply not_elem_of_nil in Hin|done].
Qed.

End route_facts.

Section env_facts.

Context {number : Type}.
Variable numberLit : Z → number.
Variable Number : jsstring → option number.

Import Startup.

(** The schema rejects exactly a missing [DATABASE_URL] and a [PORT]
    that coerces to NaN; any string is accepted as [DATABASE_URL]. *)
Lemma EnvSchema_rejects_iff processEnv :
  (∃ fieldErrors,
      EnvSchema_parse numberLit Number processEnv = inl fieldErrors)
  ↔ processEnv !! "DATABASE_URL" = None
    ∨ ∃ s, processEnv !! "PORT" = Some s ∧ Number s = None.
Proof.
  unfold EnvSchema_parse, parsePORT, parseString.
  destruct (processEnv !! "PORT") as [s|];
    [destruct (Number s) eqn:En|];
    destruct (processEnv !! "DATABASE_URL"); simpl;
    split; intros Hx; eauto;
    try (destruct Hx as [? Hx]; discriminate Hx);
    try (destruct Hx as [Hx|(s' & Hx & Hn)]; simplify_eq).
Qed.

End env_facts.

(** * The claims *)

Section claims.

Context `{Runtime}.

(** C1.  When [createCategory] receives a body with a name and no slug
    and answers 201, the slug of the created record is the slug derived
    from the name: the lower-cased name with every run of code units
    outside [a-z0-9] replaced by one hyphen and the hyphens at both ends
    removed, that is, the words of the lower-cased name joined by single
    hyphens; it has no hyphen first or last and none doubled, and the
    record is the one appended to the table. *)
Theorem createCategory_derives_slug env req st n category st' :
  body req !! "name" = Some (JStr n) →
  body req !! "slug" = None →
  createCategory env req st
    = (res StatusCodes.CREATED (JCategory category), st') →
  Category.slug category
    = stripEdgeHyphens true (replaceNonAlnumRuns false (toLowerCase n))
  ∧ Category.slug category = joinHyphen (words (toLowerCase n))
  ∧ hyphenSeparated (Category.slug category)
  ∧ Forall (λ c, isSlugChar c = true) (Category.slug category)
  ∧ st' = st ++ [category].
Proof.
  intros Hn Hs Hc.
  assert (slugForCreate (body req)
          = (if nonEmpty n
             then Resolved (<["slug" := JStr (slugify n)]> (body req))
             else Resolved (body req))) as Hd.
  { unfold slugForCreate, assignSlug. rewrite Hn, Hs. simpl.
    by destruct (nonEmpty n). }
  assert (Category.slug category = slugify n ∧ st' = st ++ [category])
    as [Hslug ->].
  { destruct (nonEmpty n).
    - destruct (createCategory_created_slug _ _ _ _ _ _ Hd Hc)
        as (Hl & _ & ->).
      rewrite lookup_insert_eq in Hl. by injection Hl as <-.
    - destruct (createCategory_created_slug _ _ _ _ _ _ Hd Hc)
        as (Hl & _ & _).
      by rewrite Hs in Hl. }
  rewrite Hslug. split; [done|].
  split; [apply slugify_slugSpec|].
  split; [apply slugify_separated|].
  split; [apply slugify_slug_chars|done].
Qed.

(** C2.  In [createCategory] and [updateCategory] a rejection of the
    persistence client with code P2002 is answered 409 and any other
    rejection 500 with the handler's fixed message, which carries
    nothing of the error, the table being left as it was; and of two
    creations on a reachable database that agree on the name or on the
    slug, the first of them meeting no row with its id, name or slug and
    neither being answered 500, the first is answered 201 with its row,
    which is appended to the table, and the second 409, the table
    holding the first row only: one 201 and one 409. *)
Theorem persistence_failures_mapped :
  (∀ env req st data e st1,
      slugForCreate (body req) = Resolved data →
      Prisma.create env data st = (Rejected e, st1) →
      createCategory env req st
      = (if bool_decide (code e = Some "P2002")
         then res StatusCodes.CONFLICT
                  (JError "Category with this name or slug already exists")
         else res StatusCodes.INTERNAL_SERVER_ERROR
                  (JError "Failed to create category"), st))
  ∧ (∀ env req st e,
      (Prisma.findUnique env (params req !! "id") st = Rejected e
       ∨ ∃ old data st1,
           Prisma.findUnique env (params req !! "id") st
             = Resolved (Some old)
           ∧ slugForUpdate (body req) = Resolved data
           ∧ Prisma.update env (params req !! "id") data st
             = (Rejected e, st1)) →
      updateCategory env req st
      = (if bool_decide (code e = Some "P2002")
         then res StatusCodes.CONFLICT
                  (JError "Category with this name or slug already exists")
         else res StatusCodes.INTERNAL_SERVER_ERROR
                  (JError "Failed to update category"), st))
  ∧ (∀ env1 req1 env2 req2 st row1 row2,
      rowToCreate env1 (body req1) = Some row1 →
      rowToCreate env2 (body req2) = Some row2 →
      writeFault env1 = None → writeFault env2 = None →
      Prisma.taken row1 st = false →
      Category.name row2 = Category.name row1
      ∨ Category.slug row2 = Category.slug row1 →
      status (createCategory env1 req1 st).1
        ≠ StatusCodes.INTERNAL_SERVER_ERROR →
      status (createCategory env2 req2 (st ++ [row1])).1
        ≠ StatusCodes.INTERNAL_SERVER_ERROR →
      createCategory env1 req1 st
      = (res StatusCodes.CREATED (JCategory row1), st ++ [row1])
      ∧ createCategory env2 req2 (st ++ [row1])
        = (res StatusCodes.CONFLICT
               (JError "Category with this name or slug already exists"),
           st ++ [row1])).
Proof.
  split; [|split].
  - intros env req st data e st1 Hd Hc.
    pose proof (create_rejected _ _ _ _ _ Hc) as ->.
    unfold createCategory. by rewrite Hd, Hc.
  - intros env req st e [Hf|(old & data & st1 & Hf & Hd & Hu)].
    + unfold updateCategory. by rewrite Hf.
    + pose proof (update_rejected _ _ _ _ _ _ Hu) as ->.
      unfold updateCategory. by rewrite Hf, Hd, Hu.
  - intros env1 req1 env2 req2 st row1 row2 H1 H2 Hw1 Hw2 Hfree Hsame.
    unfold rowToCreate in H1, H2. unfold createCategory.
    destruct (slugForCreate (body req1)) as [data1|]; [|done].
    destruct (slugForCreate (body req2)) as [data2|]; [|done].
    rewrite (create_reachable _ _ _ _ H1 Hw1), Hfree.
    rewrite (create_reachable _ _ _ _ H2 Hw2), (taken_app_last _ _ _ Hsame).
    destruct (Prisma.rowRefused row1); [intros Hok; by destruct Hok|].
    intros _.
    destruct (Prisma.rowRefused row2); [intros Hok; by destruct Hok|].
    done.
Qed.

(** C10.  The slug derivation is idempotent, given that lower-casing
    leaves a text of lower-case letters, digits and hyphens as it is;
    and a non-empty slug sent in the body of a creation is stored
    verbatim. *)
Theorem slugify_idempotent :
  (∀ t, Forall (λ c, isSlugChar c = true) t → toLowerCase t = t) →
  (∀ s, slugify (slugify s) = slugify s)
  ∧ (∀ env req st s category st',
       body req !! "slug" = Some (JStr s) → s ≠ [] →
       createCategory env req st
         = (res StatusCodes.CREATED (JCategory category), st') →
       Category.slug category = s).
Proof.
  intros Hlower. split.
  - intros s. apply slugify_fixpoint, Hlower, slugify_slug_chars.
  - intros env req st s category st' Hs Hne Hc.
    assert (slugForCreate (body req) = Resolved (body req)) as Hd.
    { unfold slugForCreate. rewrite Hs. simpl. by destruct s. }
    destruct (createCategory_created_slug _ _ _ _ _ _ Hd Hc) as (Hl & _).
    rewrite Hs in Hl. by injection Hl.
Qed.

End claims.

Section claims_by_id.

Context `{Runtime}.

(** C3.  With the database reachable, [deleteCategory] answers 404 and
    leaves the table as it was when no row has the identifier; when a
    row has it, the answer is 200 with the confirmation message, the row
    is still in the table under the same identifier with [isActive]
    false and its other columns but [updatedAt] unchanged, no row is
    removed and the other rows are untouched. *)
Theorem deleteCategory_soft_delete env req st i :
  params req !! "id" = Some i →
  readFault env = None → writeFault env = None →
  match Prisma.findById i st with
  | None =>
      deleteCategory env req st
      = (res StatusCodes.NOT_FOUND (JMessage "Category not found"), st)
  | Some old =>
      ∃ st' kept,
        deleteCategory env req st
        = (res StatusCodes.OK (JMessage "Category deleted successfully"), st')
        ∧ Prisma.findById i st' = Some kept
        ∧ Category.isActive kept = false
        ∧ Category.id kept = Category.id old
        ∧ Category.name kept = Category.name old
        ∧ Category.slug kept = Category.slug old
        ∧ Category.description kept = Category.description old
        ∧ Category.color kept = Category.color old
        ∧ Category.createdAt kept = Category.createdAt old
        ∧ length st' = length st
        ∧ ∀ j, j ≠ i → Prisma.findById j st' = Prisma.findById j st
  end.
Proof.
  intros Hi Hr Hw. destruct (Prisma.findById i st) as [old|] eqn:Hf.
  - exists (Prisma.replaceFirst i (softDeleted env old) st),
           (softDeleted env old).
    pose proof (findById_id _ _ _ Hf) as Hid.
    split; [by apply deleteCategory_present|].
    split; [by apply findById_replaceFirst with old|].
    do 7 (split; [done|]).
    split; [apply length_replaceFirst|].
    intros j Hj. by apply findById_replaceFirst_ne.
  - by apply deleteCategory_absent with i.
Qed.

(** C4.  [listCategories] answers 200 with the active rows of the table,
    each as often as it occurs there and no other, ordered by creation
    time descending; when the read fails it answers 500.  The table is
    not changed. *)
Theorem listCategories_active_newest_first env req st :
  match readFault env with
  | None =>
      ∃ categories,
        listCategories env req st
        = (res StatusCodes.OK (JCategories categories), st)
        ∧ categories ≡ₚ List.filter Category.isActive st
        ∧ (∀ c, c ∈ categories ↔ c ∈ st ∧ Category.isActive c = true)
        ∧ StronglySorted newestFirst categories
  | Some e =>
      listCategories env req st
      = (res StatusCodes.INTERNAL_SERVER_ERROR
             (JError "Failed to fetch categories"), st)
  end.
Proof.
  destruct (readFault env) as [e|] eqn:Hf.
  - unfold listCategories, Prisma.findMany. by rewrite Hf.
  - destruct (findMany_resolved env true Prisma.desc st Hf)
      as (cs & Hm & Hsorted & Hperm).
    assert (List.filter (λ c, bool_decide (Category.isActive c = true)) st
            = List.filter Category.isActive st) as Hfilter.
    { apply List.filter_ext. intros c.
      destruct (Category.isActive c); done. }
    rewrite Hfilter in Hperm.
    exists cs. split; [unfold listCategories; by rewrite Hm|].
    split; [done|]. split; [|done].
    intros c. rewrite Hperm, !list_elem_of_In, List.filter_In. done.
Qed.

(** C5.  With the database reachable, [getCategory] answers 200 with
    the row that has the identifier whatever its [isActive] flag; in
    particular after a successful [deleteCategory] of an identifier the
    answer for it is 200 with a record whose [isActive] is false. *)
Theorem getCategory_ignores_active_flag :
  (∀ env req st i category,
      params req !! "id" = Some i →
      readFault env = None →
      Prisma.findById i st = Some category →
      getCategory env req st
      = (res StatusCodes.OK (JCategory category), st))
  ∧ (∀ envD env req st i old response st',
      params req !! "id" = Some i →
      readFault envD = None → writeFault envD = None →
      readFault env = None →
      Prisma.findById i st = Some old →
      deleteCategory envD req st = (response, st') →
      ∃ category,
        getCategory env req st'
        = (res StatusCodes.OK (JCategory category), st')
        ∧ Category.id category = i
        ∧ Category.isActive category = false).
Proof.
  split.
  - intros. by apply getCategory_present with i.
  - intros envD env req st i old response st' Hi HrD HwD Hr Hf Hd.
    rewrite (deleteCategory_present _ _ _ _ _ Hi HrD HwD Hf) in Hd.
    injection Hd as _ <-.
    pose proof (findById_id _ _ _ Hf) as Hid.
    exists (softDeleted envD old). split; [|done].
    apply getCategory_present with i; [done..|].
    by apply findById_replaceFirst with old.
Qed.

(** C6, as amended.  When [updateCategory] answers 200, a row had the
    identifier, and the slug of the updated record is derived from the
    name in the body by the rule of [createCategory] exactly when the
    body has a non-empty name and no non-empty slug, whether or not that
    name differs from the stored one; otherwise it is the slug of the
    body when there is one and the stored slug when there is none. *)
Theorem updateCategory_slug env req st category st' :
  updateCategory env req st
    = (res StatusCodes.OK (JCategory category), st') →
  ∃ i old,
    params req !! "id" = Some i ∧ Prisma.findById i st = Some old
    ∧ if truthy (body req !! "name") && negb (truthy (body req !! "slug"))
      then ∃ n, body req !! "name" = Some (JStr n)
                ∧ Category.slug category
                  = stripEdgeHyphens true
                      (replaceNonAlnumRuns false (toLowerCase n))
      else Category.slug category
           = match body req !! "slug" with
             | Some (JStr s) => s
             | _ => Category.slug old
             end.
Proof.
  intros (old & data & Hf & Hd & Hu)%updateCategory_ok.
  apply findUnique_resolved in Hf as (i & Hi & _ & Hold).
  apply update_resolved in Hu
    as (i' & d & old' & Hi' & Hdata & _ & Hold' & _ & -> & _).
  rewrite Hi in Hi'. injection Hi' as <-.
  clear Hold. exists i, old'. split; [done|]. split; [done|].
  pose proof (readData_slug _ _ Hdata) as Hslug.
  unfold slugForUpdate in Hd. simpl.
  destruct (truthy (body req !! "name") && negb (truthy (body req !! "slug"))).
  - apply assignSlug_resolved in Hd as (n & Hn & ->).
    exists n. split; [done|].
    rewrite lookup_insert_eq in Hslug.
    destruct (Prisma.d_slug d); [|done]. by injection Hslug as <-.
  - injection Hd as <-.
    destruct (Prisma.d_slug d); simpl; by rewrite Hslug.
Qed.

(** C7.  A request that violates a key of a schema given to
    [validateRequest] is answered 422, with a list of issues that names
    every violated key of every declared part and only such keys; the
    answer is the same for every handler behind the middleware, and the
    table is left as it was. *)
Theorem validateRequest_rejects schemas (next : Handler) env req st key :
  violated (s_params schemas) (JStr <$> params req) key
  ∨ violated (s_body schemas) (body req) key →
  ∃ details,
    validateRequest schemas next env req st
    = (res StatusCodes.UNPROCESSABLE_ENTITY (JValidationError details), st)
    ∧ (∀ k, violated (s_params schemas) (JStr <$> params req) k
            ∨ violated (s_body schemas) (body req) k →
            ∃ issue, issue ∈ details ∧ path issue = [k])
    ∧ (∀ issue, issue ∈ details →
            ∃ k, path issue = [k]
                 ∧ (violated (s_params schemas) (JStr <$> params req) k
                    ∨ violated (s_body schemas) (body req) k)).
Proof.
  intros Hv.
  set (details :=
         partIssues (s_params schemas) (JStr <$> params req)
         ++ partIssues (s_body schemas) (body req)).
  assert (∀ k, violated (s_params schemas) (JStr <$> params req) k
               ∨ violated (s_body schemas) (body req) k →
               ∃ issue, issue ∈ details ∧ path issue = [k]) as Hall.
  { intros k [(shape & t & Hs & Hin & Hne)|(shape & t & Hs & Hin & Hne)];
      destruct (objectIssues_complete _ _ _ _ Hin Hne) as (issue & Hi & Hp);
      exists issue; (split; [|done]); unfold details;
      rewrite Hs; simpl; apply elem_of_app; auto. }
  exists details. split; [|split; [exact Hall|]].
  - destruct (Hall key Hv) as (issue & Hi & _).
    unfold validateRequest. fold details.
    destruct details; [by apply not_elem_of_nil in Hi|done].
  - intros issue [Hi|Hi]%elem_of_app.
    + destruct (s_params schemas) as [shape|] eqn:Hs;
        [|by apply not_elem_of_nil in Hi].
      apply objectIssues_sound in Hi as (k & t & Hin & Hp & Hne).
      exists k. split; [done|]. left. by exists shape, t.
    + destruct (s_body schemas) as [shape|] eqn:Hs;
        [|by apply not_elem_of_nil in Hi].
      apply objectIssues_sound in Hi as (k & t & Hin & Hp & Hne).
      exists k. split; [done|]. right. by exists shape, t.
Qed.

End claims_by_id.

Section startup_claims.

Context {number : Type}.
Variable numberLit : Z → number.
Variable Number : jsstring → option number.

Import Startup.


End startup_claims.

Section assembly_claims.

Import Assembly.



(** The standalone server file installs the CORS policy and JSON body
    parsing and mounts the school router under [/api/v1]; [app.listen]
    adds no layer. *)
Lemma standalone_layers :
  stack program
  = [ mkLayer "/" cors;
      mkLayer "/" expressJson;
      mkLayer "/api/v1" (routerOf "schoolRouter") ].
Proof. reflexivity. Qed.

(** The standalone server file is another assembly: its stack is not
    the five middleware followed by routers, whatever resource each
    router serves. *)
Lemma standalone_not_as_specified :
  ¬ ∃ resourceOf, asSpecified resourceOf Assembly.app.
Proof.
  intros (resourceOf & routers & Heq & _).
  vm_compute in Heq. discriminate Heq.
Qed.


End assembly_claims.

(** ** Counterexamples *)

(** C6, as stated, fails: a category stored with a slug of its own and
    patched with its unchanged name and no slug answers 200 with a slug
    derived from the name, not the stored one. *)
Lemma unchanged_name_rederives_slug :
  ¬ (∀ env req st i old category st',
        params req !! "id" = Some i →
        Prisma.findById i st = Some old →
        body req !! "name" = Some (JStr (Category.name old)) →
        body req !! "slug" = None →
        updateCategory (H:=asciiRuntime) env req st
          = (res StatusCodes.OK (JCategory category), st') →
        Category.slug category = Category.slug old).
Proof.
  intros Hclaim.
  specialize (Hclaim Sample.env2 Sample.patchSameName [Sample.foo]
                (lit "c1") Sample.foo Sample.fooRenamed [Sample.fooRenamed]).
  discriminate Hclaim; by vm_compute.
Qed.


(** ** The statements at sample requests *)

(** C1 at [POST { "name": "Electronics" }] on the empty table. *)
Lemma createCategory_derives_slug_sample :
  Category.slug Sample.electronics
    = stripEdgeHyphens true
        (replaceNonAlnumRuns false (asciiToLowerCase (lit "Electronics")))
  ∧ Category.slug Sample.electronics
    = joinHyphen (words (asciiToLowerCase (lit "Electronics")))
  ∧ hyphenSeparated (Category.slug Sample.electronics)
  ∧ Forall (λ c, isSlugChar c = true) (Category.slug Sample.electronics)
  ∧ [Sample.electronics] = [] ++ [Sample.electronics].
Proof.
  apply (createCategory_derives_slug (H:=asciiRuntime)
           Sample.env1 Sample.postElectronics [] (lit "Electronics")
           Sample.electronics [Sample.electronics]);
    vm_compute; reflexivity.
Defined.

(** C2 with the database unreachable, and with the same creation sent
    twice. *)
Lemma persistence_failures_mapped_sample :
  createCategory (H:=asciiRuntime) Sample.envDown Sample.postElectronics []
  = (res StatusCodes.INTERNAL_SERVER_ERROR
         (JError "Failed to create category"), [])
  ∧ updateCategory (H:=asciiRuntime) Sample.envDown Sample.patchSameName
      [Sample.foo]
    = (res StatusCodes.INTERNAL_SERVER_ERROR
           (JError "Failed to update category"), [Sample.foo])
  ∧ createCategory (H:=asciiRuntime) Sample.env1 Sample.postElectronics []
    = (res StatusCodes.CREATED (JCategory Sample.electronics),
       [Sample.electronics])
  ∧ createCategory (H:=asciiRuntime) Sample.env2 Sample.postElectronics
      [Sample.electronics]
    = (res StatusCodes.CONFLICT
           (JError "Category with this name or slug already exists"),
       [Sample.electronics]).
Proof.
  destruct (persistence_failures_mapped (H:=asciiRuntime))
    as (Hcreate & Hupdate & Htwice).
  split; [|split].
  - eapply (Hcreate Sample.envDown Sample.postElectronics []
              _ Sample.databaseDown []); vm_compute; reflexivity.
  - apply (Hupdate Sample.envDown Sample.patchSameName [Sample.foo]
             Sample.databaseDown).
    left. vm_compute. reflexivity.
  - apply (Htwice Sample.env1 Sample.postElectronics
             Sample.env2 Sample.postElectronics []
             Sample.electronics
             (Category.mk (lit "c2") (lit "Electronics") (lit "electronics")
                None (Some (lit "#3B82F6")) true 200 200)).
    + vm_compute. reflexivity.
    + vm_compute. reflexivity.
    + reflexivity.
    + reflexivity.
    + reflexivity.
    + left. reflexivity.
    + vm_compute. lia.
    + vm_compute. lia.
Defined.

(** C3 at [DELETE /c1] on the table that holds [c1]. *)
Lemma deleteCategory_soft_delete_sample :
  ∃ st' kept,
    deleteCategory (H:=asciiRuntime) Sample.env2 Sample.byIdC1
      [Sample.electronics]
    = (res StatusCodes.OK (JMessage "Category deleted successfully"), st')
    ∧ Prisma.findById (lit "c1") st' = Some kept
    ∧ Category.isActive kept = false
    ∧ Category.id kept = Category.id Sample.electronics
    ∧ Category.name kept = Category.name Sample.electronics
    ∧ Category.slug kept = Category.slug Sample.electronics
    ∧ Category.description kept = Category.description Sample.electronics
    ∧ Category.color kept = Category.color Sample.electronics
    ∧ Category.createdAt kept = Category.createdAt Sample.electronics
    ∧ length st' = length [Sample.electronics]
    ∧ ∀ j, j ≠ lit "c1" →
           Prisma.findById j st' = Prisma.findById j [Sample.electronics].
Proof.
  apply (deleteCategory_soft_delete (H:=asciiRuntime)
           Sample.env2 Sample.byIdC1 [Sample.electronics] (lit "c1"));
    vm_compute; reflexivity.
Defined.

(** C5 at [GET /c1], before and after [DELETE /c1]. *)
Lemma getCategory_ignores_active_flag_sample :
  getCategory Sample.env2 Sample.byIdC1 [Sample.electronics]
  = (res StatusCodes.OK (JCategory Sample.electronics), [Sample.electronics])
  ∧ ∃ category,
      getCategory Sample.env2 Sample.byIdC1
        [softDeleted Sample.env2 Sample.electronics]
      = (res StatusCodes.OK (JCategory category),
         [softDeleted Sample.env2 Sample.electronics])
      ∧ Category.id category = lit "c1"
      ∧ Category.isActive category = false.
Proof.
  destruct (getCategory_ignores_active_flag (H:=asciiRuntime))
    as (Hget & Hafter).
  split.
  - apply (Hget Sample.env2 Sample.byIdC1 [Sample.electronics] (lit "c1"));
      vm_compute; reflexivity.
  - apply (Hafter Sample.env2 Sample.env2 Sample.byIdC1 [Sample.electronics]
             (lit "c1") Sample.electronics
             (res StatusCodes.OK (JMessage "Category deleted successfully")));
      vm_compute; reflexivity.
Defined.

(** C6, as amended, at [PATCH /c1 { "name": "Foo" }]. *)
Lemma updateCategory_slug_sample :
  ∃ i old,
    params Sample.patchSameName !! "id" = Some i
    ∧ Prisma.findById i [Sample.foo] = Some old
    ∧ ∃ n, body Sample.patchSameName !! "name" = Some (JStr n)
           ∧ Category.slug Sample.fooRenamed
             = stripEdgeHyphens true
                 (replaceNonAlnumRuns false (asciiToLowerCase n)).
Proof.
  apply (updateCategory_slug (H:=asciiRuntime) Sample.env2
           Sample.patchSameName [Sample.foo] Sample.fooRenamed
           [Sample.fooRenamed]).
  vm_compute. reflexivity.
Defined.

(** C7 at a [POST] with a numeric name and an empty slug. *)
Lemma validateRequest_rejects_sample :
  ∃ details,
    validateRequest (mkSchemas None (Some CreateCategorySchema))
      (createCategory (H:=asciiRuntime)) Sample.env1 Sample.postMalformed []
    = (res StatusCodes.UNPROCESSABLE_ENTITY (JValidationError details), [])
    ∧ (∀ k, violated None (JStr <$> params Sample.postMalformed) k
            ∨ violated (Some CreateCategorySchema)
                (body Sample.postMalformed) k →
            ∃ issue, issue ∈ details ∧ path issue = [k])
    ∧ (∀ issue, issue ∈ details →
            ∃ k, path issue = [k]
                 ∧ (violated None (JStr <$> params Sample.postMalformed) k
                    ∨ violated (Some CreateCategorySchema)
                        (body Sample.postMalformed) k)).
Proof.
  apply (validateRequest_rejects (mkSchemas None (Some CreateCategorySchema))
           (createCategory (H:=asciiRuntime)) Sample.env1
           Sample.postMalformed [] "name").
  right.
  exists CreateCategorySchema, (ZString (Some (1%nat, "Category name is required"))).
  split; [reflexivity|]. split.
  - vm_compute. apply list_elem_of_here.
  - vm_compute. discriminate.
Defined.


(** C10 with ASCII lower-casing. *)
Lemma slugify_idempotent_sample :
  (∀ s, slugify (H:=asciiRuntime) (slugify (H:=asciiRuntime) s)
        = slugify (H:=asciiRuntime) s)
  ∧ (∀ env req st s category st',
       body req !! "slug" = Some (JStr s) → s ≠ [] →
       createCategory (H:=asciiRuntime) env req st
         = (res StatusCodes.CREATED (JCategory category), st') →
       Category.slug category = s).
Proof.
  apply (slugify_idempotent (H:=asciiRuntime)).
  exact asciiToLowerCase_slug_chars.
Defined.

(** * Further properties of the code *)

(** ** The slug derivation *)

Section slug_more.

Context `{Runtime}.

Lemma filter_replaceNonAlnumRuns b s :
  List.filter isLowerAlnum (replaceNonAlnumRuns b s)
  = List.filter isLowerAlnum s.
Proof.
  revert b. induction s as [|c r IH]; intros b; simpl; [done|].
  destruct (isLowerAlnum c) eqn:Hc; simpl.
  - by rewrite Hc, IH.
  - destruct b; simpl; by rewrite ?hyphen_not_alnum, IH.
Qed.

Lemma filter_stripEdgeHyphens b s :
  List.filter isLowerAlnum (stripEdgeHyphens b s)
  = List.filter isLowerAlnum s.
Proof.
  revert b. induction s as [|c r IH]; intros b; simpl; [done|].
  destruct (isHyphen c && (b || bool_decide (r = []))) eqn:Hc; simpl.
  - apply andb_true_iff in Hc as [Hc _].
    destruct (isLowerAlnum c) eqn:Ha.
    + by rewrite (alnum_not_hyphen _ Ha) in Hc.
    + apply IH.
  - by rewrite IH.
Qed.

Lemma length_replaceNonAlnumRuns b s :
  (length (replaceNonAlnumRuns b s) ≤ length s)%nat.
Proof.
  revert b. induction s as [|c r IH]; intros b; simpl; [done|].
  destruct (isLowerAlnum c); simpl.
  - specialize (IH false). lia.
  - destruct b; simpl; specialize (IH true); lia.
Qed.

Lemma length_stripEdgeHyphens b s :
  (length (stripEdgeHyphens b s) ≤ length s)%nat.
Proof.
  revert b. induction s as [|c r IH]; intros b; simpl; [done|].
  destruct (isHyphen c && (b || bool_decide (r = []))); simpl;
    specialize (IH false); lia.
Qed.

Lemma replace_no_alnum s :
  List.filter isLowerAlnum s = [] →
  replaceNonAlnumRuns true s = []
  ∧ (replaceNonAlnumRuns false s = []
     ∨ replaceNonAlnumRuns false s = [hyphen]).
Proof.
  induction s as [|c r IH]; simpl; [by auto|].
  destruct (isLowerAlnum c); [done|]. intros Hr.
  destruct (IH Hr) as [-> _]. auto.
Qed.

(** X1.  The slug keeps the code units of [[a-z0-9]] of the lower-cased
    name, all of them and in their order, and is never longer than the
    lower-cased name. *)
Theorem slugify_keeps_alnum n :
  List.filter isLowerAlnum (slugify n)
  = List.filter isLowerAlnum (toLowerCase n)
  ∧ (length (slugify n) ≤ length (toLowerCase n))%nat.
Proof.
  unfold slugify. split.
  - by rewrite filter_stripEdgeHyphens, filter_replaceNonAlnumRuns.
  - etrans; [apply length_stripEdgeHyphens|].
    apply length_replaceNonAlnumRuns.
Qed.

(** X2.  The slug is empty exactly when the lower-cased name holds no
    code unit of [[a-z0-9]]. *)
Theorem slugify_empty_iff n :
  slugify n = [] ↔ List.filter isLowerAlnum (toLowerCase n) = [].
Proof.
  unfold slugify. split.
  - intros Hs.
    rewrite <- (filter_replaceNonAlnumRuns false),
            <- (filter_stripEdgeHyphens true), Hs. done.
  - intros Hf. destruct (replace_no_alnum _ Hf) as [_ [->| ->]]; done.
Qed.

(** X3.  Two names get the same slug exactly when their lower-cased
    forms have the same words, the maximal runs of code units of
    [[a-z0-9]]. *)
Theorem slugify_collision_iff a b :
  slugify a = slugify b ↔ words (toLowerCase a) = words (toLowerCase b).
Proof.
  rewrite !slugify_slugSpec. unfold slugSpec. split.
  - intros Hj.
    rewrite <- (words_joinHyphen (words (toLowerCase a)))
      by apply words_alnum.
    rewrite Hj. apply words_joinHyphen, words_alnum.
  - by intros ->.
Qed.

Lemma separated_followed s :
  Forall (λ c, isSlugChar c = true) s → hyphenSeparated s →
  hyphensFollowed s.
Proof.
  intros Hs (_ & Hlast & Hdouble) i Hi.
  destruct (s !! S i) as [c|] eqn:Ec.
  - exists c. split; [done|].
    pose proof (Forall_lookup_1 _ _ _ _ Hs Ec) as Hc. simpl in Hc.
    unfold isSlugChar in Hc. apply orb_true_iff in Hc as [Hc|Hc]; [done|].
    apply N.eqb_eq in Hc. subst c. by destruct (Hdouble i Hi).
  - destruct Hlast. rewrite last_lookup.
    apply lookup_ge_None in Ec. apply lookup_lt_Some in Hi as Hlt.
    by replace (pred (length s)) with i by lia.
Qed.

Lemma followed_tail c s : hyphensFollowed (c :: s) → hyphensFollowed s.
Proof. intros Hf i Hi. apply (Hf (S i) Hi). Qed.

Lemma replace_followed s :
  Forall (λ c, isSlugChar c = true) s → hyphensFollowed s →
  replaceNonAlnumRuns false s = s.
Proof.
  induction 1 as [|c r Hc Hr IH]; intros Hf; [done|].
  specialize (IH (followed_tail _ _ Hf)). simpl.
  destruct (isLowerAlnum c) eqn:Ha; [by rewrite IH|].
  unfold isSlugChar in Hc. rewrite Ha in Hc. simpl in Hc.
  apply N.eqb_eq in Hc. subst c.
  destruct (Hf 0%nat eq_refl) as (c' & Hc' & Ha').
  destruct r as [|c'' r']; [done|]. simpl in Hc'. injection Hc' as ->.
  simpl in IH |- *. rewrite Ha' in IH |- *. by rewrite IH.
Qed.

Lemma strip_followed s :
  hyphensFollowed s → stripEdgeHyphens false s = s.
Proof.
  induction s as [|c r IH]; intros Hf; [done|].
  specialize (IH (followed_tail _ _ Hf)). simpl.
  destruct (isHyphen c && bool_decide (r = [])) eqn:Hc; [|by rewrite IH].
  apply andb_true_iff in Hc as [Hc Hr].
  apply N.eqb_eq in Hc. apply bool_decide_eq_true_1 in Hr. subst.
  by destruct (Hf 0%nat eq_refl) as (? & ? & _).
Qed.

(** X4.  For a text that lower-casing leaves as it is, the slug
    derivation returns the text itself exactly when the text consists of
    lower-case letters, digits and hyphens with no hyphen first, last or
    doubled. *)
Theorem slugify_fixed_iff s :
  toLowerCase s = s →
  slugify s = s
  ↔ Forall (λ c, isSlugChar c = true) s ∧ hyphenSeparated s.
Proof.
  intros Hl. split.
  - intros Hs. rewrite <- Hs.
    split; [apply slugify_slug_chars|apply slugify_separated].
  - intros [Hs Hsep].
    pose proof (separated_followed _ Hs Hsep) as Hf.
    unfold slugify. rewrite Hl, (replace_followed _ Hs Hf).
    destruct s as [|c r]; [done|]. simpl.
    destruct Hsep as (Hhead & _). simpl in Hhead.
    destruct (isHyphen c) eqn:Hc.
    + apply N.eqb_eq in Hc. by subst c.
    + simpl. by rewrite (strip_followed _ (followed_tail _ _ Hf)).
Qed.

End slug_more.

(** ** The schemas *)

Section schema_more.

Lemma objectIssues_nil_iff shape o :
  objectIssues shape o = []
  ↔ ∀ key t, (key, t) ∈ shape → check t (o !! key) = [].
Proof.
  split.
  - intros Hnil key t Hin.
    destruct (check t (o !! key)) as [|cm cms] eqn:Ec; [done|].
    destruct (objectIssues_complete shape o key t Hin) as (i & Hi & _);
      [by rewrite Ec|].
    rewrite Hnil in Hi. by apply not_elem_of_nil in Hi.
  - intros Hall. destruct (objectIssues shape o) as [|i l] eqn:Ei; [done|].
    destruct (objectIssues_sound shape o i) as (key & t & Hin & _ & Hne).
    { rewrite Ei. apply list_elem_of_here. }
    by destruct Hne; apply Hall.
Qed.

Lemma objectIssues_Forall shape o :
  objectIssues shape o = []
  ↔ Forall (λ kt, check kt.2 (o !! kt.1) = []) shape.
Proof.
  rewrite objectIssues_nil_iff, Forall_forall. split.
  - intros Hall [key t] Hin. by apply Hall.
  - intros Hall key t Hin. by apply (Hall (key, t)).
Qed.

Lemma check_text msg v :
  check (ZString (Some (1%nat, msg))) v = []
  ↔ ∃ s, v = Some (JStr s) ∧ s ≠ [].
Proof.
  destruct v as [[| | |s]|]; simpl; try (split; [done|by intros (? & ? & _)]).
  destruct s as [|c s]; simpl.
  - split; [done|]. by intros (? & [= <-] & ?).
  - split; [|done]. intros _. by exists (c :: s).
Qed.

Lemma check_optional t v :
  check (ZOptional t) v = [] ↔ v = None ∨ check t v = [].
Proof.
  destruct v as [x|]; simpl; split; auto. by intros [|].
Qed.

Lemma check_description v :
  check (ZNullable (ZOptional (ZString None))) v = []
  ↔ v = None ∨ v = Some JNull ∨ ∃ d, v = Some (JStr d).
Proof.
  destruct v as [[| | |s]|]; simpl; split; intros Hx;
    first [reflexivity | discriminate Hx | by eauto
          | decompose [or ex] Hx; discriminate].
Qed.

Lemma check_string v :
  check (ZString None) v = [] ↔ ∃ c, v = Some (JStr c).
Proof.
  destruct v as [[| | |s]|]; simpl; split; intros Hx;
    first [reflexivity | discriminate Hx | by eauto
          | decompose [or ex] Hx; discriminate].
Qed.

Lemma check_color v :
  check (ZOptional (ZString None)) v = []
  ↔ v = None ∨ ∃ c, v = Some (JStr c).
Proof.
  destruct v as [[| | |s]|]; simpl; split; intros Hx;
    first [reflexivity | discriminate Hx | by eauto
          | decompose [or ex] Hx; discriminate].
Qed.

Lemma check_isActive v :
  check (ZDefault ZBoolean) v = [] ↔ v = None ∨ ∃ a, v = Some (JBool a).
Proof.
  destruct v as [[| | |s]|]; simpl; split; intros Hx;
    first [reflexivity | discriminate Hx | by eauto
          | decompose [or ex] Hx; discriminate].
Qed.

Lemma CreateCategorySchema_shape :
  CreateCategorySchema
  = [ ("name", ZString (Some (1%nat, "Category name is required")));
      ("slug", ZString (Some (1%nat, "Slug is required")));
      ("description", ZNullable (ZOptional (ZString None)));
      ("color", ZOptional (ZString None));
      ("isActive", ZDefault ZBoolean) ].
Proof. reflexivity. Qed.

Lemma UpdateCategorySchema_shape :
  UpdateCategorySchema
  = [ ("name", ZOptional (ZString (Some (1%nat, "Category name is required"))));
      ("slug", ZOptional (ZString (Some (1%nat, "Slug is required"))));
      ("description", ZOptional (ZNullable (ZOptional (ZString None))));
      ("color", ZOptional (ZOptional (ZString None)));
      ("isActive", ZOptional (ZDefault ZBoolean)) ].
Proof. reflexivity. Qed.

(** What [CreateCategorySchema] accepts, key by key. *)
Lemma create_schema_accepts o :
  objectIssues CreateCategorySchema o = []
  ↔ (∃ n, o !! "name" = Some (JStr n) ∧ n ≠ [])
    ∧ (∃ s, o !! "slug" = Some (JStr s) ∧ s ≠ [])
    ∧ (o !! "description" = None ∨ o !! "description" = Some JNull
       ∨ ∃ d, o !! "description" = Some (JStr d))
    ∧ (o !! "color" = None ∨ ∃ c, o !! "color" = Some (JStr c))
    ∧ (o !! "isActive" = None ∨ ∃ a, o !! "isActive" = Some (JBool a)).
Proof.
  rewrite objectIssues_Forall, CreateCategorySchema_shape.
  rewrite !Forall_cons, Forall_nil. cbn [fst snd].
  rewrite !check_text, check_description, check_color, check_isActive.
  tauto.
Qed.

(** What [UpdateCategorySchema] accepts, key by key. *)
Lemma update_schema_accepts o :
  objectIssues UpdateCategorySchema o = []
  ↔ (o !! "name" = None ∨ ∃ n, o !! "name" = Some (JStr n) ∧ n ≠ [])
    ∧ (o !! "slug" = None ∨ ∃ s, o !! "slug" = Some (JStr s) ∧ s ≠ [])
    ∧ (o !! "description" = None ∨ o !! "description" = Some JNull
       ∨ ∃ d, o !! "description" = Some (JStr d))
    ∧ (o !! "color" = None ∨ ∃ c, o !! "color" = Some (JStr c))
    ∧ (o !! "isActive" = None ∨ ∃ a, o !! "isActive" = Some (JBool a)).
Proof.
  rewrite objectIssues_Forall, UpdateCategorySchema_shape.
  rewrite !Forall_cons, Forall_nil. cbn [fst snd].
  rewrite !check_optional.
  rewrite !check_text, check_description, check_string, check_isActive.
  tauto.
Qed.

(** X5.  [CreateCategorySchema] accepts exactly the bodies that
    [UpdateCategorySchema] accepts and that hold both a name and a slug;
    the empty body is accepted for an update and refused for a
    creation. *)
Theorem create_schema_is_update_schema_with_name_and_slug :
  (∀ o, objectIssues CreateCategorySchema o = []
        ↔ objectIssues UpdateCategorySchema o = []
          ∧ o !! "name" ≠ None ∧ o !! "slug" ≠ None)
  ∧ objectIssues UpdateCategorySchema ∅ = []
  ∧ objectIssues CreateCategorySchema ∅ ≠ [].
Proof.
  split; [|split; [done|done]].
  intros o. rewrite create_schema_accepts, update_schema_accepts. split.
  - intros ((n & Hn & Hne) & (s & Hs & Hse) & Hd & Hc & Ha).
    split; [|by rewrite Hn, Hs]. repeat split; eauto 6.
  - intros (([Hn|Hn] & [Hs|Hs] & Hd & Hc & Ha) & Hnn & Hsn); done.
Qed.

(** X6.  [IdParamSchema] accepts the path parameters exactly when they
    hold a non-empty [id]. *)
Theorem id_param_schema_accepts (ps : gmap string jsstring) :
  objectIssues IdParamSchema (JStr <$> ps) = []
  ↔ ∃ i, ps !! "id" = Some i ∧ i ≠ [].
Proof.
  rewrite objectIssues_Forall. unfold IdParamSchema.
  rewrite Forall_cons, Forall_nil. cbn [fst snd].
  rewrite check_text, lookup_fmap. destruct (ps !! "id") as [i|]; simpl.
  - split; [intros [(x & Hx & Hne) _]|intros (x & Hx & Hne); split; [|done]];
      simplify_eq/=; eauto.
  - split; [intros [(x & Hx & Hne) _]|intros (x & Hx & Hne)]; simplify_eq/=.
Qed.

End schema_more.

(** ** The answers of the handlers *)

Section handler_cases.

Context `{Runtime}.

Import Prisma.

Lemma createCategory_catch_cases e :
  createCategory_catch e
  = res StatusCodes.CONFLICT
        (JError "Category with this name or slug already exists")
  ∨ createCategory_catch e
    = res StatusCodes.INTERNAL_SERVER_ERROR
          (JError "Failed to create category").
Proof. unfold createCategory_catch. case_bool_decide; auto. Qed.

Lemma updateCategory_catch_cases e :
  updateCategory_catch e
  = res StatusCodes.CONFLICT
        (JError "Category with this name or slug already exists")
  ∨ updateCategory_catch e
    = res StatusCodes.INTERNAL_SERVER_ERROR
          (JError "Failed to update category").
Proof. unfold updateCategory_catch. case_bool_decide; auto. Qed.

Lemma listCategories_cases env req st r st' :
  listCategories env req st = (r, st') →
  st' = st
  ∧ ((∃ cs, r = res StatusCodes.OK (JCategories cs))
     ∨ r = res StatusCodes.INTERNAL_SERVER_ERROR
             (JError "Failed to fetch categories")).
Proof.
  unfold listCategories.
  destruct (findMany env true desc st); intros [= <- <-]; eauto.
Qed.

Lemma getCategory_cases env req st r st' :
  getCategory env req st = (r, st') →
  st' = st
  ∧ ((∃ c, r = res StatusCodes.OK (JCategory c))
     ∨ r = res StatusCodes.NOT_FOUND (JMessage "Category not found")
     ∨ r = res StatusCodes.INTERNAL_SERVER_ERROR
             (JError "Failed to fetch category")).
Proof.
  unfold getCategory.
  destruct (findUnique env (params req !! "id") st) as [[c|]|e];
    intros [= <- <-]; eauto.
Qed.

Lemma createCategory_cases env req st r st' :
  createCategory env req st = (r, st') →
  (∃ c, r = res StatusCodes.CREATED (JCategory c)
        ∧ st' = st ++ [c] ∧ taken c st = false)
  ∨ (st' = st
     ∧ (r = res StatusCodes.CONFLICT
                (JError "Category with this name or slug already exists")
        ∨ r = res StatusCodes.INTERNAL_SERVER_ERROR
                  (JError "Failed to create category"))).
Proof.
  unfold createCategory.
  destruct (slugForCreate (body req)) as [data|e].
  - destruct (create env data st) as [[c|e] st1] eqn:Ec; intros [= <- <-].
    + apply create_resolved in Ec as (d & _ & _ & _ & Ht & ->). eauto.
    + apply create_rejected in Ec as ->. right. split; [done|].
      apply createCategory_catch_cases.
  - intros [= <- <-]. right. split; [done|].
    apply createCategory_catch_cases.
Qed.

Lemma updateCategory_cases env req st r st' :
  updateCategory env req st = (r, st') →
  (∃ i old d,
      r = res StatusCodes.OK (JCategory (patchRow env old d))
      ∧ params req !! "id" = Some i ∧ findById i st = Some old
      ∧ takenBy d (removeFirst i st) = false
      ∧ st' = replaceFirst i (patchRow env old d) st)
  ∨ (st' = st
     ∧ (r = res StatusCodes.NOT_FOUND (JMessage "Category not found")
        ∨ r = res StatusCodes.CONFLICT
                  (JError "Category with this name or slug already exists")
        ∨ r = res StatusCodes.INTERNAL_SERVER_ERROR
                  (JError "Failed to update category"))).
Proof.
  unfold updateCategory.
  destruct (findUnique env (params req !! "id") st) as [[old|]|e] eqn:Ef.
  - destruct (slugForUpdate (body req)) as [data|e].
    + destruct (update env (params req !! "id") data st)
        as [[c|e] st1] eqn:Eu; intros [= <- <-].
      * apply update_resolved in Eu
          as (i & d & old' & Hi & _ & _ & Hold & Ht & -> & ->).
        left. by exists i, old', d.
      * apply update_rejected in Eu as ->. right. split; [done|]. right.
        apply updateCategory_catch_cases.
    + intros [= <- <-]. right. split; [done|]. right.
      apply updateCategory_catch_cases.
  - intros [= <- <-]. auto.
  - intros [= <- <-]. right. split; [done|]. right.
    apply updateCategory_catch_cases.
Qed.

Lemma deleteCategory_cases env req st r st' :
  deleteCategory env req st = (r, st') →
  (∃ i old,
      r = res StatusCodes.OK (JMessage "Category deleted successfully")
      ∧ params req !! "id" = Some i ∧ findById i st = Some old
      ∧ st' = replaceFirst i (softDeleted env old) st)
  ∨ (st' = st
     ∧ (r = res StatusCodes.NOT_FOUND (JMessage "Category not found")
        ∨ r = res StatusCodes.INTERNAL_SERVER_ERROR
                  (JError "Failed to delete category"))).
Proof.
  unfold deleteCategory.
  destruct (findUnique env (params req !! "id") st) as [[old|]|e] eqn:Ef.
  - destruct (update env (params req !! "id") {[ "isActive" := JBool false ]} st)
      as [[c|e] st1] eqn:Eu; intros [= <- <-].
    + apply update_resolved in Eu
        as (i & d & old' & Hi & Hd & _ & Hold & _ & -> & ->).
      rewrite readData_isActive_false in Hd. injection Hd as <-.
      left. by exists i, old'.
    + apply update_rejected in Eu as ->. auto.
  - intros [= <- <-]. auto.
  - intros [= <- <-]. auto.
Qed.

End handler_cases.

(** ** Sequences of requests *)

Section sequences.

Context `{Runtime}.

Import Prisma.

Lemma taken_false_columns row (st : Store) :
  taken row st = false →
  (Category.id row ∉ (Category.id <$> st))
  ∧ (Category.name row ∉ (Category.name <$> st))
  ∧ (Category.slug row ∉ (Category.slug <$> st)).
Proof.
  unfold taken. induction st as [|c r IH]; simpl.
  - intros _. repeat split; apply not_elem_of_nil.
  - intros Ht. apply orb_false_iff in Ht as [Hc Hr].
    apply orb_false_iff in Hc as [Hc Hslug].
    apply orb_false_iff in Hc as [Hid Hname].
    apply bool_decide_eq_false_1 in Hid, Hname, Hslug.
    destruct (IH Hr) as (H1 & H2 & H3).
    repeat split; apply not_elem_of_cons;
      (split; [by apply not_eq_sym|done]).
Qed.

Lemma findById_None i (st : Store) :
  findById i st = None ↔ i ∉ (Category.id <$> st).
Proof.
  unfold findById. induction st as [|c r IH]; simpl.
  - split; [intros _; apply not_elem_of_nil|done].
  - unfold hasId at 1. case_bool_decide as Hc.
    + split; [done|]. intros Hn. destruct Hn. rewrite Hc. apply list_elem_of_here.
    + rewrite IH, not_elem_of_cons. split; [by split|by intros []].
Qed.

Lemma findById_app_None i (st l : Store) :
  findById i st = None → findById i (st ++ l) = findById i l.
Proof.
  unfold findById. induction st as [|c r IH]; simpl; [done|].
  destruct (hasId i c); [done|]. apply IH.
Qed.

Lemma findById_created c (st : Store) :
  taken c st = false → findById (Category.id c) (st ++ [c]) = Some c.
Proof.
  intros (Hid & _ & _)%taken_false_columns.
  rewrite findById_app_None by by apply findById_None.
  unfold findById, hasId. simpl. by rewrite bool_decide_eq_true_2.
Qed.

Lemma listCategories_lists env req (st : Store) :
  readFault env = None →
  ∃ cs, listCategories env req st = (res StatusCodes.OK (JCategories cs), st)
        ∧ ∀ c, c ∈ cs ↔ c ∈ st ∧ Category.isActive c = true.
Proof.
  intros Hf.
  destruct (findMany_resolved env true desc st Hf) as (cs & Hm & _ & Hperm).
  exists cs. split; [unfold listCategories; by rewrite Hm|].
  intros c. rewrite Hperm, !list_elem_of_In, List.filter_In.
  by rewrite bool_decide_eq_true.
Qed.

(** X7.  With the database reachable, [getCategory] and [updateCategory]
    answer 404 for an identifier that no row has, and leave the table as
    it was; neither answers 500 for it. *)
Theorem absent_id_not_found env req st i :
  params req !! "id" = Some i →
  readFault env = None →
  findById i st = None →
  getCategory env req st
  = (res StatusCodes.NOT_FOUND (JMessage "Category not found"), st)
  ∧ updateCategory env req st
    = (res StatusCodes.NOT_FOUND (JMessage "Category not found"), st).
Proof.
  intros Hi Hr Hf. unfold getCategory, updateCategory.
  by rewrite Hi, (findUnique_no_fault _ _ _ Hr), Hf.
Qed.

(** X8.  A category that [createCategory] has answered with 201 is the
    one [getCategory] returns for its identifier on the resulting table,
    and when it is active it is among the categories [listCategories]
    returns. *)
Theorem created_category_is_read_back env req st category st' env' req' :
  createCategory env req st
    = (res StatusCodes.CREATED (JCategory category), st') →
  readFault env' = None →
  params req' !! "id" = Some (Category.id category) →
  getCategory env' req' st'
    = (res StatusCodes.OK (JCategory category), st')
  ∧ (Category.isActive category = true →
     ∃ categories,
       listCategories env' req' st'
         = (res StatusCodes.OK (JCategories categories), st')
       ∧ category ∈ categories).
Proof.
  intros Hc Hr Hi.
  apply createCategory_cases in Hc as [(c & [= <-] & -> & Ht)|[_ [?|?]]];
    [|done..].
  split.
  - apply getCategory_present with (Category.id category); [done..|].
    by apply findById_created.
  - intros Ha.
    destruct (listCategories_lists env' req' (st ++ [category]) Hr)
      as (cs & Hl & Hcs).
    exists cs. split; [done|]. apply Hcs. split; [|done].
    apply elem_of_app. right. apply list_elem_of_here.
Qed.

(** X9.  Deleting a category twice answers 200 both times: the second
    request finds the soft-deleted row, stamps it again and leaves it
    inactive; it is not answered 404. *)
Theorem deleteCategory_twice env1 env2 req st i old :
  params req !! "id" = Some i →
  readFault env1 = None → writeFault env1 = None →
  readFault env2 = None → writeFault env2 = None →
  findById i st = Some old →
  ∃ st1 st2 kept,
    deleteCategory env1 req st
    = (res StatusCodes.OK (JMessage "Category deleted successfully"), st1)
    ∧ deleteCategory env2 req st1
      = (res StatusCodes.OK (JMessage "Category deleted successfully"), st2)
    ∧ findById i st2 = Some kept
    ∧ Category.isActive kept = false
    ∧ Category.updatedAt kept = now env2
    ∧ length st2 = length st.
Proof.
  intros Hi Hr1 Hw1 Hr2 Hw2 Hf.
  pose proof (findById_id _ _ _ Hf) as Hid.
  pose proof (findById_replaceFirst i (softDeleted env1 old) st old Hf Hid)
    as Hf1.
  pose proof (findById_replaceFirst i
                (softDeleted env2 (softDeleted env1 old)) _ _ Hf1 Hid) as Hf2.
  eexists _, _, _.
  split; [by apply deleteCategory_present|].
  split; [by apply deleteCategory_present|].
  split; [exact Hf2|]. split; [done|]. split; [done|].
  by rewrite !length_replaceFirst.
Qed.

End sequences.

(** ** The uniqueness constraints *)

Section uniqueness.

Context `{Runtime}.

Import Prisma.

Lemma findById_split i (st : Store) old :
  findById i st = Some old →
  ∃ pre post,
    st = pre ++ old :: post
    ∧ removeFirst i st = pre ++ post
    ∧ (∀ new, replaceFirst i new st = pre ++ new :: post)
    ∧ i ∉ (Category.id <$> pre).
Proof.
  unfold findById. induction st as [|c r IH]; simpl; [done|].
  destruct (hasId i c) eqn:Hc.
  - intros [= <-]. exists [], r.
    split; [done|]. split; [done|]. split; [done|]. apply not_elem_of_nil.
  - intros (pre & post & -> & Hrm & Hrep & Hpre)%IH.
    exists (c :: pre), post. simpl. rewrite Hrm.
    split; [done|]. split; [done|]. split.
    + intros new. by rewrite Hrep.
    + apply not_elem_of_cons. split; [|done].
      unfold hasId in Hc. apply bool_decide_eq_false_1 in Hc. congruence.
Qed.

Lemma takenBy_false_columns d (others : Store) :
  takenBy d others = false →
  (∀ v, d_id d = Some v → v ∉ (Category.id <$> others))
  ∧ (∀ v, d_name d = Some v → v ∉ (Category.name <$> others))
  ∧ (∀ v, d_slug d = Some v → v ∉ (Category.slug <$> others)).
Proof.
  unfold takenBy. induction others as [|c r IH]; simpl.
  - intros _. repeat split; intros; apply not_elem_of_nil.
  - intros Ht. apply orb_false_iff in Ht as [Hc Hr].
    apply orb_false_iff in Hc as [Hc Hslug].
    apply orb_false_iff in Hc as [Hid Hname].
    apply bool_decide_eq_false_1 in Hid, Hname, Hslug.
    destruct (IH Hr) as (H1 & H2 & H3).
    repeat split; intros v Hv; apply not_elem_of_cons;
      (split; [congruence|eauto]).
Qed.

Lemma NoDup_column_snoc (f : Category.t → jsstring) (st : Store) c :
  NoDup (f <$> st) → f c ∉ (f <$> st) → NoDup (f <$> (st ++ [c])).
Proof.
  intros Hnd Hc. rewrite fmap_app. apply NoDup_app.
  split; [done|]. split.
  - intros x Hx [->|Hn]%elem_of_cons; [done|].
    by apply not_elem_of_nil in Hn.
  - apply NoDup_singleton.
Qed.

Lemma NoDup_column_replace (f : Category.t → jsstring) pre old new post :
  NoDup (f <$> (pre ++ old :: post)) →
  f new = f old ∨ f new ∉ (f <$> (pre ++ post)) →
  NoDup (f <$> (pre ++ new :: post)).
Proof.
  rewrite !fmap_app, !fmap_cons. intros Hnd [->|Hn]; [done|].
  apply NoDup_app in Hnd as (Hpre & Hdisj & Hpost).
  apply NoDup_cons in Hpost as [Hold Hpost].
  apply NoDup_app. split; [done|]. split.
  - intros x Hx [->|Hin]%elem_of_cons.
    + apply Hn, elem_of_app. by left.
    + apply (Hdisj x Hx). by apply list_elem_of_further.
  - apply NoDup_cons. split; [|done].
    intros Hin. apply Hn, elem_of_app. by right.
Qed.

Lemma consistent_replace pre old new post :
  consistent (pre ++ old :: post) →
  (Category.id new = Category.id old
   ∨ Category.id new ∉ (Category.id <$> (pre ++ post))) →
  (Category.name new = Category.name old
   ∨ Category.name new ∉ (Category.name <$> (pre ++ post))) →
  (Category.slug new = Category.slug old
   ∨ Category.slug new ∉ (Category.slug <$> (pre ++ post))) →
  consistent (pre ++ new :: post).
Proof.
  intros (H1 & H2 & H3) Hi Hn Hs.
  repeat split; by eapply NoDup_column_replace.
Qed.

Lemma patched_column {A} (old : A) (o : option A) (others : list A) :
  (∀ v, o = Some v → v ∉ others) →
  default old o = old ∨ default old o ∉ others.
Proof. destruct o as [v|]; simpl; [right|left]; auto. Qed.

(** X10.  Every handler keeps the uniqueness constraints of the table:
    when no two rows agree on the identifier, on the name or on the slug
    before a request, none do after it, whatever the request and
    whatever the answer. *)
Theorem handlers_keep_uniqueness m p handler env req st :
  handlerOf m p = Some handler →
  consistent st →
  consistent (handler env req st).2.
Proof.
  intros Hh Hst.
  destruct (handler env req st) as [r st'] eqn:Er. simpl.
  destruct m, p; simpl in Hh; simplify_eq.
  - by apply listCategories_cases in Er as [-> _].
  - by apply getCategory_cases in Er as [-> _].
  - apply createCategory_cases in Er as [(c & _ & -> & Ht)|[-> _]]; [|done].
    apply taken_false_columns in Ht as (Hi & Hn & Hs).
    destruct Hst as (H1 & H2 & H3).
    repeat split; by apply NoDup_column_snoc.
  - apply updateCategory_cases in Er
      as [(i & old & d & _ & _ & Hf & Ht & ->)|[-> _]]; [|done].
    apply findById_split in Hf as (pre & post & -> & Hrm & Hrep & _).
    rewrite Hrep. rewrite Hrm in Ht.
    apply takenBy_false_columns in Ht as (Hi & Hn & Hs).
    apply consistent_replace with old; [done|..]; by apply patched_column.
  - apply deleteCategory_cases in Er
      as [(i & old & _ & _ & Hf & ->)|[-> _]]; [|done].
    apply findById_split in Hf as (pre & post & -> & _ & Hrep & _).
    rewrite Hrep. apply consistent_replace with old; auto.
Qed.

(** X11.  On a table whose identifiers are unique, after a successful
    [deleteCategory] of an identifier no category that [listCategories]
    returns has that identifier. *)
Theorem deleted_category_not_listed env req st i old response st' env' req' :
  NoDup (Category.id <$> st) →
  params req !! "id" = Some i →
  readFault env = None → writeFault env = None →
  findById i st = Some old →
  deleteCategory env req st = (response, st') →
  readFault env' = None →
  ∃ categories,
    listCategories env' req' st'
      = (res StatusCodes.OK (JCategories categories), st')
    ∧ ∀ c, c ∈ categories → Category.id c ≠ i.
Proof.
  intros Hnd Hi Hr Hw Hf Hd Hr'.
  rewrite (deleteCategory_present _ _ _ _ _ Hi Hr Hw Hf) in Hd.
  injection Hd as _ <-.
  pose proof (findById_id _ _ _ Hf) as Hid.
  apply findById_split in Hf as (pre & post & -> & _ & Hrep & Hpre).
  rewrite Hrep.
  destruct (listCategories_lists env' req' (pre ++ softDeleted env old :: post) Hr')
    as (cs & Hl & Hcs).
  exists cs. split; [done|]. intros c [Hin Ha]%Hcs Hc.
  rewrite fmap_app, fmap_cons in Hnd.
  apply NoDup_app in Hnd as (_ & _ & [Hold _]%NoDup_cons).
  apply elem_of_app in Hin as [Hin|[->|Hin]%elem_of_cons].
  - apply Hpre. rewrite <- Hc. by apply list_elem_of_fmap_2.
  - done.
  - apply Hold. rewrite Hid, <- Hc. by apply list_elem_of_fmap_2.
Qed.

End uniqueness.

(** ** Handlers, bindings and their documentation *)

Section documentation.

Context `{Runtime}.

Ltac documented :=
  left;
  first
    [ solve [eexists; split; [apply list_elem_of_here|split; reflexivity]]
    | solve [eexists; split;
             [apply list_elem_of_further, list_elem_of_here
             |split; reflexivity]]
    | solve [eexists; split;
             [apply list_elem_of_further, list_elem_of_further,
                list_elem_of_here
             |split; reflexivity]] ].

Ltac undocumented := right; split; [reflexivity|eexists; reflexivity].

(** X12.  Whatever the request, the answer of a handler is one its
    OpenAPI definition lists, with that status and a body of the kind
    the listed schema describes, or it is a 500 whose body holds an
    [error] text. *)
Theorem handlers_answer_as_documented doc p handler env req st :
  doc ∈ categoriesOpenAPI →
  doc_path doc = documentedPath p →
  handlerOf (doc_method doc) p = Some handler →
  (∃ rd, rd ∈ doc_responses doc
         ∧ r_status rd = status (handler env req st).1
         ∧ conforms (r_schema rd) (json (handler env req st).1) = true)
  ∨ (status (handler env req st).1 = StatusCodes.INTERNAL_SERVER_ERROR
     ∧ ∃ e, json (handler env req st).1 = JError e).
Proof.
  intros Hdoc Hp Hh.
  destruct (handler env req st) as [r st'] eqn:Er. simpl.
  unfold categoriesOpenAPI in Hdoc.
  repeat (apply elem_of_cons in Hdoc as [->|Hdoc]);
    [..|by apply not_elem_of_nil in Hdoc];
    destruct p; try discriminate Hp; simpl in Hh; simplify_eq.
  - apply listCategories_cases in Er as [_ [[cs ->]| ->]]; documented.
  - apply createCategory_cases in Er as [(c & -> & _)|[_ [->| ->]]];
      [documented|documented|undocumented].
  - apply getCategory_cases in Er as [_ [[c ->]|[->| ->]]];
      [documented|documented|undocumented].
  - apply updateCategory_cases in Er
      as [(i & old & d & -> & _)|[_ [->|[->| ->]]]];
      [documented|documented|documented|undocumented].
  - apply deleteCategory_cases in Er
      as [(i & old & -> & _)|[_ [->| ->]]];
      [documented|documented|undocumented].
Qed.

(** X13.  The router binds the routes the OpenAPI definitions describe
    and no other, and each definition names as request schemas the ones
    its route hands to [validateRequest]. *)
Theorem routes_bound_as_documented :
  (∀ m p, router m p = validateRequest (schemasOf m p) <$> handlerOf m p)
  ∧ (∀ m p, is_Some (router m p)
            ↔ ∃ doc, doc ∈ categoriesOpenAPI ∧ doc_method doc = m
                     ∧ doc_path doc = documentedPath p)
  ∧ (∀ doc, doc ∈ categoriesOpenAPI →
            ∃ p, doc_path doc = documentedPath p
                 ∧ is_Some (router (doc_method doc) p)
                 ∧ doc_params doc = s_params (schemasOf (doc_method doc) p)
                 ∧ fst <$> doc_body doc
                   = s_body (schemasOf (doc_method doc) p)).
Proof.
  split; [|split].
  - intros [] []; reflexivity.
  - intros m p. split.
    + intros [h Hh].
      destruct m, p; try discriminate Hh;
        eexists; (split; [|split]); unfold categoriesOpenAPI.
      * apply list_elem_of_here.
      * reflexivity.
      * reflexivity.
      * apply list_elem_of_further, list_elem_of_further, list_elem_of_here.
      * reflexivity.
      * reflexivity.
      * apply list_elem_of_further, list_elem_of_here.
      * reflexivity.
      * reflexivity.
      * do 3 apply list_elem_of_further. apply list_elem_of_here.
      * reflexivity.
      * reflexivity.
      * do 4 apply list_elem_of_further. apply list_elem_of_here.
      * reflexivity.
      * reflexivity.
    + intros (doc & Hdoc & <- & Hp). unfold categoriesOpenAPI in Hdoc.
      repeat (apply elem_of_cons in Hdoc as [->|Hdoc]);
        [..|by apply not_elem_of_nil in Hdoc];
        destruct p; try discriminate Hp; simpl; eauto.
  - intros doc Hdoc. unfold categoriesOpenAPI in Hdoc.
    repeat (apply elem_of_cons in Hdoc as [->|Hdoc]);
      [..|by apply not_elem_of_nil in Hdoc].
    + exists root. repeat split. simpl. eauto.
    + exists root. repeat split. simpl. eauto.
    + exists byId. repeat split. simpl. eauto.
    + exists byId. repeat split. simpl. eauto.
    + exists byId. repeat split. simpl. eauto.
Qed.

(** X14.  A handler changes the table only together with an answer 200
    or 201: with any other answer the table is the one it was, and the
    two reading handlers never change it. *)
Theorem table_changes_only_on_success m p handler env req st :
  handlerOf m p = Some handler →
  succeeded (handler env req st).1 = false ∨ m = GET →
  (handler env req st).2 = st.
Proof.
  intros Hh Hfail.
  destruct (handler env req st) as [r st'] eqn:Er. simpl in *.
  destruct m, p; simpl in Hh; simplify_eq.
  - by apply listCategories_cases in Er as [-> _].
  - by apply getCategory_cases in Er as [-> _].
  - destruct Hfail as [Hfail|?]; [|done].
    by apply createCategory_cases in Er as [(c & -> & _)|[-> _]].
  - destruct Hfail as [Hfail|?]; [|done].
    by apply updateCategory_cases in Er
      as [(i & old & d & -> & _)|[-> _]].
  - destruct Hfail as [Hfail|?]; [|done].
    by apply deleteCategory_cases in Er as [(i & old & -> & _)|[-> _]].
Qed.

End documentation.

(** ** Validated bodies *)

Section validated.

Context `{Runtime}.

Import Prisma.

Lemma inputKeys_modelFields : inputKeys ⊆ modelFields.
Proof. compute_done. Qed.

Lemma outside_inputKeys (data : gmap string JValue) key :
  dom data ⊆ inputKeys → key ∉ inputKeys → data !! key = None.
Proof. intros Hdom Hkey. apply not_elem_of_dom. set_solver. Qed.

(** The client accepts the data the schemas let through. *)
Lemma readData_accepts (data : gmap string JValue) :
  dom data ⊆ inputKeys →
  (data !! "name" = None ∨ ∃ n, data !! "name" = Some (JStr n)) →
  (data !! "slug" = None ∨ ∃ s, data !! "slug" = Some (JStr s)) →
  (data !! "description" = None ∨ data !! "description" = Some JNull
   ∨ ∃ d, data !! "description" = Some (JStr d)) →
  (data !! "color" = None ∨ ∃ c, data !! "color" = Some (JStr c)) →
  (data !! "isActive" = None ∨ ∃ a, data !! "isActive" = Some (JBool a)) →
  readData data
  = Some (mkData None (textOf (data !! "name")) (textOf (data !! "slug"))
            (nullableTextOf (data !! "description"))
            (nullableTextOf (data !! "color"))
            (boolOf (data !! "isActive")) None None).
Proof.
  intros Hdom Hn Hs Hd Hc Ha. unfold readData.
  rewrite bool_decide_eq_true_2
    by (etrans; [exact Hdom|exact inputKeys_modelFields]).
  rewrite (outside_inputKeys data "id" Hdom)
    by compute_done.
  rewrite (outside_inputKeys data "createdAt" Hdom)
    by compute_done.
  rewrite (outside_inputKeys data "updatedAt" Hdom)
    by compute_done.
  destruct Hn as [Hn|[n Hn]], Hs as [Hs|[s Hs]],
    Hd as [Hd|[Hd|[d Hd]]], Hc as [Hc|[c Hc]], Ha as [Ha|[a Ha]];
    rewrite Hn, Hs, Hd, Hc, Ha; reflexivity.
Qed.

End validated.

Section validated_requests.

Context `{Runtime}.

Import Prisma.

Lemma newRow_of_body env (b : gmap string JValue) n s :
  dom b ⊆ inputKeys →
  b !! "name" = Some (JStr n) → b !! "slug" = Some (JStr s) →
  (b !! "description" = None ∨ b !! "description" = Some JNull
   ∨ ∃ d, b !! "description" = Some (JStr d)) →
  (b !! "color" = None ∨ ∃ c, b !! "color" = Some (JStr c)) →
  (b !! "isActive" = None ∨ ∃ a, b !! "isActive" = Some (JBool a)) →
  readData b ≫= newRow env = Some (rowOfBody env n s b).
Proof.
  intros Hdom Hn Hs Hd Hc Ha.
  rewrite (readData_accepts b Hdom) by eauto.
  unfold rowOfBody. simpl. unfold newRow. simpl. rewrite Hn, Hs. simpl.
  destruct Hd as [Hd|[Hd|[d Hd]]], Hc as [Hc|[c Hc]], Ha as [Ha|[a Ha]];
    rewrite Hd, Hc, Ha; reflexivity.
Qed.

Lemma slugForCreate_with_slug (b : gmap string JValue) s :
  b !! "slug" = Some (JStr s) → s ≠ [] → slugForCreate b = Resolved b.
Proof. intros Hs Hne. unfold slugForCreate. rewrite Hs. by destruct s. Qed.

(** X15.  On a body that [CreateCategorySchema] accepts, [createCategory]
    derives no slug: the body goes to the persistence client as it is,
    and a created record has the name and the slug of the body. *)
Theorem accepted_creation_keeps_slug req :
  objectIssues CreateCategorySchema (body req) = [] →
  slugForCreate (body req) = Resolved (body req)
  ∧ ∀ env st category st',
      createCategory env req st
        = (res StatusCodes.CREATED (JCategory category), st') →
      body req !! "name" = Some (JStr (Category.name category))
      ∧ body req !! "slug" = Some (JStr (Category.slug category)).
Proof.
  intros ((n & Hn & Hne) & (s & Hs & Hse) & _)%create_schema_accepts.
  pose proof (slugForCreate_with_slug _ _ Hs Hse) as Hd.
  split; [done|]. intros env st category st' Hc.
  by destruct (createCategory_created_slug _ _ _ _ _ _ Hd Hc) as (? & ? & _).
Qed.

(** X16.  When [createCategory] answers 201 for a body that
    [CreateCategorySchema] accepts and that holds no other key, the
    created row is the row of the body: its name and its slug,
    description, color and [isActive] from the body or else no
    description, the color ["#3B82F6"] and [true], the identifier
    supplied by the generator, and both timestamps the time of the
    request; no row of the table had its identifier, its name or its
    slug, and it is appended at the end of the table. *)
Theorem accepted_creation_row env req st category st' :
  objectIssues CreateCategorySchema (body req) = [] →
  dom (body req) ⊆ inputKeys →
  createCategory env req st
    = (res StatusCodes.CREATED (JCategory category), st') →
  ∃ n s,
    body req !! "name" = Some (JStr n)
    ∧ body req !! "slug" = Some (JStr s)
    ∧ category = rowOfBody env n s (body req)
    ∧ (Category.id category ∉ (Category.id <$> st))
    ∧ (Category.name category ∉ (Category.name <$> st))
    ∧ (Category.slug category ∉ (Category.slug <$> st))
    ∧ st' = st ++ [category].
Proof.
  intros Hv Hdom Hc.
  apply create_schema_accepts in Hv
    as ((n & Hn & Hne) & (s & Hs & Hse) & Hd & Hcol & Ha).
  exists n, s. split; [done|]. split; [done|].
  apply createCategory_created in Hc as (data & Hdata & Hc).
  rewrite (slugForCreate_with_slug _ _ Hs Hse) in Hdata.
  injection Hdata as <-.
  apply create_resolved in Hc as (d & Hread & Hrow & _ & Hfree & ->).
  pose proof (newRow_of_body env _ n s Hdom Hn Hs Hd Hcol Ha) as Hb.
  rewrite Hread in Hb. simpl in Hb. rewrite Hrow in Hb.
  injection Hb as Hb. split; [done|].
  by destruct (taken_false_columns _ _ Hfree) as (? & ? & ?).
Qed.

Lemma takenBy_true d (others : Store) other :
  other ∈ others →
  d_name d = Some (Category.name other)
  ∨ d_slug d = Some (Category.slug other) →
  takenBy d others = true.
Proof.
  intros Hin Hsame. unfold takenBy. apply existsb_exists.
  exists other. split; [by apply list_elem_of_In|].
  destruct Hsame as [E|E]; rewrite (bool_decide_eq_true_2 _ E);
    by rewrite ?orb_true_r.
Qed.

(** X19.  A body whose name is truthy but not a string, and whose slug
    is missing or falsy, makes the slug statement throw: [createCategory]
    answers 500 without a write, and so does [updateCategory] for an
    existing category. *)
Theorem non_string_name_answers_500 env req st :
  truthy (body req !! "name") = true →
  textOf (body req !! "name") = None →
  truthy (body req !! "slug") = false →
  createCategory env req st
  = (res StatusCodes.INTERNAL_SERVER_ERROR
         (JError "Failed to create category"), st)
  ∧ ∀ i old,
      params req !! "id" = Some i →
      readFault env = None →
      findById i st = Some old →
      updateCategory env req st
      = (res StatusCodes.INTERNAL_SERVER_ERROR
             (JError "Failed to update category"), st).
Proof.
  intros Ht Hn Hs.
  assert (assignSlug (body req) = Rejected typeError) as Ha.
  { unfold assignSlug. by destruct (body req !! "name") as [[]|]. }
  split.
  - unfold createCategory, slugForCreate. by rewrite Ht, Hs, Ha.
  - intros i old Hi Hr Hf. unfold updateCategory, slugForUpdate.
    by rewrite Hi, (findUnique_no_fault _ _ _ Hr), Hf, Ht, Hs, Ha.
Qed.

End validated_requests.

(** ** Partial updates *)

Section partial_update.

Context `{Runtime}.

Import Prisma.

Lemma readData_absent (data : gmap string JValue) d :
  readData data = Some d →
  (data !! "id" = None → d_id d = None)
  ∧ (data !! "name" = None → d_name d = None)
  ∧ (data !! "description" = None → d_description d = None)
  ∧ (data !! "color" = None → d_color d = None)
  ∧ (data !! "isActive" = None → d_isActive d = None)
  ∧ (data !! "createdAt" = None → d_createdAt d = None)
  ∧ (data !! "updatedAt" = None → d_updatedAt d = None).
Proof.
  unfold readData. case_bool_decide; [|done]. intros Hd.
  destruct (scalar (readString (data !! "id"))) as [x1|] eqn:E1; [|done].
  destruct (scalar (readString (data !! "name"))) as [x2|] eqn:E2; [|done].
  destruct (scalar (readString (data !! "slug"))) as [x3|] eqn:E3; [|done].
  destruct (nullable (readString (data !! "description"))) as [x4|] eqn:E4;
    [|done].
  destruct (nullable (readString (data !! "color"))) as [x5|] eqn:E5; [|done].
  destruct (scalar (readBoolean (data !! "isActive"))) as [x6|] eqn:E6;
    [|done].
  destruct (scalar (readDateTime (data !! "createdAt"))) as [x7|] eqn:E7;
    [|done].
  destruct (scalar (readDateTime (data !! "updatedAt"))) as [x8|] eqn:E8;
    [|done].
  simpl in Hd. injection Hd as <-. simpl.
  split_and!; intros Habs; rewrite Habs in *; simpl in *; congruence.
Qed.

Lemma slugForUpdate_other_keys (b data : gmap string JValue) key :
  slugForUpdate b = Resolved data → key ≠ "slug" → data !! key = b !! key.
Proof.
  unfold slugForUpdate.
  destruct (truthy (b !! "name") && negb (truthy (b !! "slug"))).
  - intros (n & _ & ->)%assignSlug_resolved Hk. by rewrite lookup_insert_ne.
  - by intros [= <-].
Qed.

Lemma findById_replaceFirst_other i j new (st : Store) :
  j ≠ i → j ≠ Category.id new →
  findById j (replaceFirst i new st) = findById j st.
Proof.
  unfold findById. intros Hi Hn.
  induction st as [|c r IH]; simpl; [done|].
  destruct (hasId i c) eqn:Ec; simpl.
  - unfold hasId in *. apply bool_decide_eq_true_1 in Ec.
    rewrite !bool_decide_eq_false_2 by congruence. done.
  - by rewrite IH.
Qed.

Lemma replaceFirst_same i (st : Store) old :
  findById i st = Some old → replaceFirst i old st = st.
Proof.
  unfold findById. induction st as [|c r IH]; simpl; [done|].
  destruct (hasId i c); [by intros [= ->]|].
  intros Hf. by rewrite (IH Hf).
Qed.

Lemma readData_empty :
  readData ∅ = Some (mkData None None None None None None None None).
Proof. by vm_compute. Qed.

Lemma patchRow_nothing env old :
  patchRow env old (mkData None None None None None None None None) = old.
Proof. by destruct old. Qed.

(** Only the empty object writes nothing. *)
Lemma readData_writesNothing (data : gmap string JValue) d :
  readData data = Some d → writesNothing d = true → data = ∅.
Proof.
  unfold readData. case_bool_decide as Hdom; [|done]. intros Hd.
  destruct (data !! "id") as [[]|] eqn:E1; try done;
  destruct (data !! "name") as [[]|] eqn:E2; try done;
  destruct (data !! "slug") as [[]|] eqn:E3; try done;
  destruct (data !! "description") as [[]|] eqn:E4; try done;
  destruct (data !! "color") as [[]|] eqn:E5; try done;
  destruct (data !! "isActive") as [[]|] eqn:E6; try done;
  destruct (data !! "createdAt") as [[]|] eqn:E7; try done;
  destruct (data !! "updatedAt") as [[]|] eqn:E8; try done;
  simpl in Hd; repeat case_match; simplify_eq/=; try done.
  intros _. apply map_empty. intros key.
  destruct (decide (key ∈ modelFields)) as [Hk|Hk].
  - unfold modelFields in Hk. set_unfold in Hk.
    destruct Hk as [->|[->|[->|[->|[->|[->|[->|[->|[]]]]]]]]]; done.
  - apply not_elem_of_dom. set_solver.
Qed.

Lemma slugForUpdate_nonempty (b data : gmap string JValue) :
  slugForUpdate b = Resolved data → b ≠ ∅ → data ≠ ∅.
Proof.
  unfold slugForUpdate.
  destruct (truthy (b !! "name") && negb (truthy (b !! "slug"))).
  - intros (n & _ & ->)%assignSlug_resolved _. apply insert_non_empty.
  - by intros [= <-].
Qed.

Lemma slugForUpdate_no_name (b : gmap string JValue) :
  truthy (b !! "name") = false → slugForUpdate b = Resolved b.
Proof. intros Hn. unfold slugForUpdate. by rewrite Hn. Qed.

Lemma readData_slug_absent (data : gmap string JValue) d :
  readData data = Some d → data !! "slug" = None → d_slug d = None.
Proof.
  intros Hd Hs. pose proof (readData_slug _ _ Hd) as Hx.
  destruct (d_slug d); [congruence|done].
Qed.

Lemma readData_slug_present (data : gmap string JValue) d s :
  readData data = Some d → data !! "slug" = Some (JStr s) → d_slug d = Some s.
Proof.
  intros Hd Hs. pose proof (readData_slug _ _ Hd) as Hx.
  destruct (d_slug d); congruence.
Qed.

(** X20.  When [updateCategory] answers 200 the updated row stands in
    the place of the stored one and no row is added or removed; a column
    whose key is missing from the body keeps its stored value, the slug
    when the body holds no truthy name either; an empty body leaves the
    row and the table as they were, [updatedAt] included, and any other
    body without [updatedAt] sets it to the time of the request; and
    the rows with other identifiers are found as before. *)
Theorem updateCategory_keeps_absent_fields env req st category st' :
  updateCategory env req st
    = (res StatusCodes.OK (JCategory category), st') →
  ∃ i old,
    params req !! "id" = Some i ∧ findById i st = Some old
    ∧ st' = replaceFirst i category st
    ∧ length st' = length st
    ∧ (body req !! "id" = None → Category.id category = Category.id old)
    ∧ (body req !! "name" = None →
       Category.name category = Category.name old)
    ∧ (body req !! "slug" = None → truthy (body req !! "name") = false →
       Category.slug category = Category.slug old)
    ∧ (body req !! "description" = None →
       Category.description category = Category.description old)
    ∧ (body req !! "color" = None →
       Category.color category = Category.color old)
    ∧ (body req !! "isActive" = None →
       Category.isActive category = Category.isActive old)
    ∧ (body req !! "createdAt" = None →
       Category.createdAt category = Category.createdAt old)
    ∧ (body req = ∅ → category = old ∧ st' = st)
    ∧ (body req ≠ ∅ → body req !! "updatedAt" = None →
       Category.updatedAt category = now env)
    ∧ ∀ j, j ≠ i → j ≠ Category.id category →
           findById j st' = findById j st.
Proof.
  intros (old0 & data & _ & Hd & Hu)%updateCategory_ok.
  apply update_resolved in Hu
    as (i & d & old & Hi & Hdata & _ & Hold & _ & -> & ->).
  destruct (readData_absent _ _ Hdata)
    as (A1 & A2 & A3 & A4 & A5 & A6 & A7).
  exists i, old. split; [done|]. split; [done|]. split; [done|].
  split; [apply length_replaceFirst|].
  split_and!.
  - intros Hb. rewrite <- (slugForUpdate_other_keys _ _ _ Hd) in Hb by done.
    simpl. by rewrite (A1 Hb).
  - intros Hb. rewrite <- (slugForUpdate_other_keys _ _ _ Hd) in Hb by done.
    simpl. by rewrite (A2 Hb).
  - intros Hs Hn. rewrite (slugForUpdate_no_name _ Hn) in Hd.
    injection Hd as <-. simpl.
    by rewrite (readData_slug_absent _ _ Hdata Hs).
  - intros Hb. rewrite <- (slugForUpdate_other_keys _ _ _ Hd) in Hb by done.
    simpl. by rewrite (A3 Hb).
  - intros Hb. rewrite <- (slugForUpdate_other_keys _ _ _ Hd) in Hb by done.
    simpl. by rewrite (A4 Hb).
  - intros Hb. rewrite <- (slugForUpdate_other_keys _ _ _ Hd) in Hb by done.
    simpl. by rewrite (A5 Hb).
  - intros Hb. rewrite <- (slugForUpdate_other_keys _ _ _ Hd) in Hb by done.
    simpl. by rewrite (A6 Hb).
  - intros Hb. rewrite Hb in Hd.
    rewrite slugForUpdate_no_name in Hd by done. injection Hd as <-.
    rewrite readData_empty in Hdata. injection Hdata as <-.
    rewrite patchRow_nothing. split; [done|].
    by apply replaceFirst_same.
  - intros Hne Hb.
    rewrite <- (slugForUpdate_other_keys _ _ _ Hd) in Hb by done.
    simpl. unfold stampOf. rewrite (A7 Hb).
    destruct (writesNothing d) eqn:Ew; [|done].
    by destruct (slugForUpdate_nonempty _ _ Hd Hne),
      (readData_writesNothing _ _ Hdata Ew).
  - intros j Hj Hn. by apply findById_replaceFirst_other.
Qed.

Lemma readData_present (data : gmap string JValue) d :
  readData data = Some d →
  (∀ n, data !! "name" = Some (JStr n) → d_name d = Some n)
  ∧ (∀ t, data !! "description" = Some (JStr t) →
          d_description d = Some (Some t))
  ∧ (data !! "description" = Some JNull → d_description d = Some None)
  ∧ (∀ c, data !! "color" = Some (JStr c) → d_color d = Some (Some c))
  ∧ (data !! "color" = Some JNull → d_color d = Some None)
  ∧ (∀ a, data !! "isActive" = Some (JBool a) → d_isActive d = Some a).
Proof.
  unfold readData. case_bool_decide; [|done]. intros Hd.
  destruct (scalar (readString (data !! "id"))) as [x1|] eqn:E1; [|done].
  destruct (scalar (readString (data !! "name"))) as [x2|] eqn:E2; [|done].
  destruct (scalar (readString (data !! "slug"))) as [x3|] eqn:E3; [|done].
  destruct (nullable (readString (data !! "description"))) as [x4|] eqn:E4;
    [|done].
  destruct (nullable (readString (data !! "color"))) as [x5|] eqn:E5; [|done].
  destruct (scalar (readBoolean (data !! "isActive"))) as [x6|] eqn:E6;
    [|done].
  destruct (scalar (readDateTime (data !! "createdAt"))) as [x7|] eqn:E7;
    [|done].
  destruct (scalar (readDateTime (data !! "updatedAt"))) as [x8|] eqn:E8;
    [|done].
  simpl in Hd. injection Hd as <-. simpl.
  split_and!; intros;
    match goal with Hx : data !! _ = _ |- _ => rewrite Hx in * end;
    simpl in *; congruence.
Qed.

(** X18.  An update of an existing category that sets its name to the
    name of another row, or its slug to the slug, not empty, of another
    row, is not carried out: the table is left as it was, and the answer
    is 409, or 500 when the request fails for another reason; it is
    neither 200 nor 404. *)
Theorem updateCategory_collision env req st i old other :
  params req !! "id" = Some i →
  findById i st = Some old →
  other ∈ removeFirst i st →
  body req !! "name" = Some (JStr (Category.name other))
  ∨ (body req !! "slug" = Some (JStr (Category.slug other))
     ∧ Category.slug other ≠ []) →
  (updateCategory env req st).2 = st
  ∧ ((updateCategory env req st).1
     = res StatusCodes.CONFLICT
           (JError "Category with this name or slug already exists")
     ∨ (updateCategory env req st).1
       = res StatusCodes.INTERNAL_SERVER_ERROR
             (JError "Failed to update category")).
Proof.
  intros Hi Hf Hother Hsame.
  unfold updateCategory. rewrite Hi. unfold findUnique.
  destruct (readFault env) as [e|];
    [split; [done|apply updateCategory_catch_cases]|].
  rewrite Hf.
  destruct (slugForUpdate (body req)) as [data|e] eqn:Hd;
    [|split; [done|apply updateCategory_catch_cases]].
  destruct (update env (Some i) data st) as [[c|e] st1] eqn:Eu.
  - exfalso. apply update_resolved in Eu
      as (i' & d & old' & [= <-] & Hread & _ & _ & Ht & _).
    rewrite (takenBy_true d _ other Hother) in Ht; [done|].
    destruct Hsame as [Hn|[Hs Hne]].
    + left. rewrite <- (slugForUpdate_other_keys _ _ _ Hd) in Hn by done.
      by apply (readData_present _ _ Hread).
    + right. apply (readData_slug_present data); [done|].
      unfold slugForUpdate in Hd. rewrite Hs in Hd. simpl in Hd.
      replace (nonEmpty (Category.slug other)) with true in Hd
        by by destruct (Category.slug other).
      rewrite andb_false_r in Hd. by injection Hd as <-.
  - apply update_rejected in Eu as ->.
    split; [done|apply updateCategory_catch_cases].
Qed.

(** X22.  When [updateCategory] answers 200 the updated row holds what
    the body holds for name, description, color and [isActive]: a string
    or a boolean as it is, and no description or no color for [null]; so
    an update with [isActive] true makes a soft-deleted category active
    again. *)
Theorem updateCategory_writes_present_fields env req st category st' :
  updateCategory env req st
    = (res StatusCodes.OK (JCategory category), st') →
  (∀ n, body req !! "name" = Some (JStr n) → Category.name category = n)
  ∧ (∀ t, body req !! "description" = Some (JStr t) →
          Category.description category = Some t)
  ∧ (body req !! "description" = Some JNull →
     Category.description category = None)
  ∧ (∀ c, body req !! "color" = Some (JStr c) →
          Category.color category = Some c)
  ∧ (body req !! "color" = Some JNull → Category.color category = None)
  ∧ (∀ a, body req !! "isActive" = Some (JBool a) →
          Category.isActive category = a).
Proof.
  intros (old0 & data & _ & Hd & Hu)%updateCategory_ok.
  apply update_resolved in Hu
    as (i & d & old & Hi & Hdata & _ & Hold & _ & -> & _).
  destruct (readData_present _ _ Hdata) as (P1 & P2 & P3 & P4 & P5 & P6).
  split_and!; intros;
    match goal with
    | Hb : body req !! _ = _ |- _ =>
        rewrite <- (slugForUpdate_other_keys _ _ _ Hd) in Hb by done
    end; simpl.
  - by rewrite (P1 _ ltac:(eassumption)).
  - by rewrite (P2 _ ltac:(eassumption)).
  - by rewrite (P3 ltac:(eassumption)).
  - by rewrite (P4 _ ltac:(eassumption)).
  - by rewrite (P5 ltac:(eassumption)).
  - by rewrite (P6 _ ltac:(eassumption)).
Qed.

End partial_update.

(** ** The environment schema *)

Section env_more.

Context {number : Type}.
Variable numberLit : Z → number.
Variable Number : jsstring → option number.

Import Startup.

(** X21.  An accepted environment holds [DATABASE_URL] as it is set,
    [NODE_ENV] and [FRONTEND_URL] as they are set or else
    ["development"] and ["http://localhost:3000"], and as [PORT] the
    coercion of the variable when it is set; a refused one is reported
    with an entry for [PORT] exactly when [PORT] coerces to NaN, an entry
    for [DATABASE_URL] exactly when it is missing, and no other entry, so
    that both are reported when both fail; and it is refused exactly
    when [DATABASE_URL] is missing or [PORT] coerces to NaN, whatever
    the other variables hold. *)
Theorem EnvSchema_parse_result processEnv :
  (∀ e, EnvSchema_parse numberLit Number processEnv = inr e →
        processEnv !! "DATABASE_URL" = Some (DATABASE_URL e)
        ∧ NODE_ENV e
          = default (lit "development") (processEnv !! "NODE_ENV")
        ∧ FRONTEND_URL e
          = default (lit "http://localhost:3000")
                    (processEnv !! "FRONTEND_URL")
        ∧ ∀ s, processEnv !! "PORT" = Some s → Number s = Some (PORT e))
  ∧ (∀ fieldErrors,
        EnvSchema_parse numberLit Number processEnv = inl fieldErrors →
        (("PORT", ["Expected number, received nan"]) ∈ fieldErrors
         ↔ ∃ s, processEnv !! "PORT" = Some s ∧ Number s = None)
        ∧ (("DATABASE_URL", ["Required"]) ∈ fieldErrors
           ↔ processEnv !! "DATABASE_URL" = None)
        ∧ ∀ entry, entry ∈ fieldErrors →
                   entry = ("PORT", ["Expected number, received nan"])
                   ∨ entry = ("DATABASE_URL", ["Required"]))
  ∧ ((∃ fieldErrors,
         EnvSchema_parse numberLit Number processEnv = inl fieldErrors)
     ↔ processEnv !! "DATABASE_URL" = None
       ∨ ∃ s, processEnv !! "PORT" = Some s ∧ Number s = None).
Proof.
  split; [|split; [|apply EnvSchema_rejects_iff]];
    unfold EnvSchema_parse, parsePORT, parseString.
  - intros e He.
    destruct (processEnv !! "PORT") as [s|]; [destruct (Number s) eqn:En|];
      destruct (processEnv !! "DATABASE_URL") as [u|]; simplify_eq/=;
      (split_and!; [done..|]); intros s' Hs'; by simplify_eq.
  - intros fe He.
    destruct (processEnv !! "PORT") as [s|]; [destruct (Number s) eqn:En|];
      destruct (processEnv !! "DATABASE_URL") as [u|]; simplify_eq/=;
      set_unfold; intuition (try congruence; eauto);
      match goal with
      | Hx : ∃ _, _ |- _ => destruct Hx as (? & ? & ?); congruence
      end.
Qed.

End env_more.

(** ** The further properties at sample requests *)

(** X4 at the text [a-b]. *)
Lemma slugify_fixed_iff_sample :
  slugify (H:=asciiRuntime) (lit "a-b") = lit "a-b"
  ↔ Forall (λ c, isSlugChar c = true) (lit "a-b")
    ∧ hyphenSeparated (lit "a-b").
Proof.
  apply (slugify_fixed_iff (H:=asciiRuntime) (lit "a-b")). reflexivity.
Defined.

(** X7 at [GET /c9] and [PATCH /c9] on a table without [c9]. *)
Lemma absent_id_not_found_sample :
  getCategory Sample.env2 Catalog.byIdC9 [Sample.electronics]
  = (res StatusCodes.NOT_FOUND (JMessage "Category not found"),
     [Sample.electronics])
  ∧ updateCategory (H:=asciiRuntime) Sample.env2 Catalog.byIdC9
      [Sample.electronics]
    = (res StatusCodes.NOT_FOUND (JMessage "Category not found"),
       [Sample.electronics]).
Proof.
  apply (absent_id_not_found (H:=asciiRuntime) Sample.env2 Catalog.byIdC9
           [Sample.electronics] (lit "c9")); vm_compute; reflexivity.
Defined.

(** X8 at the creation of [Electronics] on the empty table. *)
Lemma created_category_is_read_back_sample :
  getCategory Sample.env2 Sample.byIdC1 [Sample.electronics]
  = (res StatusCodes.OK (JCategory Sample.electronics), [Sample.electronics])
  ∧ (Category.isActive Sample.electronics = true →
     ∃ categories,
       listCategories Sample.env2 Sample.byIdC1 [Sample.electronics]
       = (res StatusCodes.OK (JCategories categories), [Sample.electronics])
       ∧ Sample.electronics ∈ categories).
Proof.
  apply (created_category_is_read_back (H:=asciiRuntime)
           Sample.env1 Sample.postElectronics [] Sample.electronics
           [Sample.electronics] Sample.env2 Sample.byIdC1);
    vm_compute; reflexivity.
Defined.

(** X9 at two [DELETE /c1] in a row. *)
Lemma deleteCategory_twice_sample :
  ∃ st1 st2 kept,
    deleteCategory (H:=asciiRuntime) Sample.env2 Sample.byIdC1
      [Sample.electronics]
    = (res StatusCodes.OK (JMessage "Category deleted successfully"), st1)
    ∧ deleteCategory (H:=asciiRuntime) Catalog.env3 Sample.byIdC1 st1
      = (res StatusCodes.OK (JMessage "Category deleted successfully"), st2)
    ∧ Prisma.findById (lit "c1") st2 = Some kept
    ∧ Category.isActive kept = false
    ∧ Category.updatedAt kept = now Catalog.env3
    ∧ length st2 = length [Sample.electronics].
Proof.
  apply (deleteCategory_twice (H:=asciiRuntime) Sample.env2 Catalog.env3
           Sample.byIdC1 [Sample.electronics] (lit "c1") Sample.electronics);
    vm_compute; reflexivity.
Defined.

(** X10 at the creation of [Books] beside [Electronics]. *)
Lemma handlers_keep_uniqueness_sample :
  consistent
    (createCategory (H:=asciiRuntime) Sample.env2 Catalog.postBooks
       [Sample.electronics]).2.
Proof.
  apply (handlers_keep_uniqueness (H:=asciiRuntime) POST root
           (createCategory (H:=asciiRuntime)) Sample.env2 Catalog.postBooks
           [Sample.electronics]).
  - reflexivity.
  - repeat split; compute_done.
Defined.

(** X11 at [DELETE /c1] on the table of two rows. *)
Lemma deleted_category_not_listed_sample :
  ∃ categories,
    listCategories Catalog.env3 Sample.byIdC1
      [softDeleted Sample.env2 Sample.electronics; Catalog.books]
    = (res StatusCodes.OK (JCategories categories),
       [softDeleted Sample.env2 Sample.electronics; Catalog.books])
    ∧ ∀ c, c ∈ categories → Category.id c ≠ lit "c1".
Proof.
  apply (deleted_category_not_listed (H:=asciiRuntime) Sample.env2
           Sample.byIdC1 Catalog.twoRows (lit "c1") Sample.electronics
           (res StatusCodes.OK (JMessage "Category deleted successfully"))
           [softDeleted Sample.env2 Sample.electronics; Catalog.books]
           Catalog.env3 Sample.byIdC1);
    first [compute_done | vm_compute; reflexivity].
Defined.

(** X12 at a creation answered 500. *)
Lemma handlers_answer_as_documented_sample :
  (∃ rd, rd ∈ doc_responses Catalog.postDoc
         ∧ r_status rd
           = status (createCategory (H:=asciiRuntime) Sample.envDown
                       Sample.postElectronics []).1
         ∧ conforms (r_schema rd)
             (json (createCategory (H:=asciiRuntime) Sample.envDown
                      Sample.postElectronics []).1) = true)
  ∨ (status (createCategory (H:=asciiRuntime) Sample.envDown
               Sample.postElectronics []).1
     = StatusCodes.INTERNAL_SERVER_ERROR
     ∧ ∃ e, json (createCategory (H:=asciiRuntime) Sample.envDown
                    Sample.postElectronics []).1 = JError e).
Proof.
  apply (handlers_answer_as_documented (H:=asciiRuntime) Catalog.postDoc root
           (createCategory (H:=asciiRuntime)) Sample.envDown
           Sample.postElectronics []).
  - apply list_elem_of_further, list_elem_of_here.
  - reflexivity.
  - reflexivity.
Defined.

(** X14 at a creation with the database unreachable. *)
Lemma table_changes_only_on_success_sample :
  (createCategory (H:=asciiRuntime) Sample.envDown Sample.postElectronics
     [Sample.foo]).2 = [Sample.foo].
Proof.
  apply (table_changes_only_on_success (H:=asciiRuntime) POST root
           (createCategory (H:=asciiRuntime)) Sample.envDown
           Sample.postElectronics [Sample.foo]).
  - reflexivity.
  - left. vm_compute. reflexivity.
Defined.

(** X15 at [POST { "name": "Books", "slug": "books" }]. *)
Lemma accepted_creation_keeps_slug_sample :
  slugForCreate (H:=asciiRuntime) (body Catalog.postBooks)
  = Resolved (body Catalog.postBooks)
  ∧ ∀ env st category st',
      createCategory (H:=asciiRuntime) env Catalog.postBooks st
        = (res StatusCodes.CREATED (JCategory category), st') →
      body Catalog.postBooks !! "name" = Some (JStr (Category.name category))
      ∧ body Catalog.postBooks !! "slug"
        = Some (JStr (Category.slug category)).
Proof.
  apply (accepted_creation_keeps_slug (H:=asciiRuntime) Catalog.postBooks).
  vm_compute. reflexivity.
Defined.

(** X16 at the creation of [Books] beside [Electronics]. *)
Lemma accepted_creation_row_sample :
  ∃ n s,
    body Catalog.postBooks !! "name" = Some (JStr n)
    ∧ body Catalog.postBooks !! "slug" = Some (JStr s)
    ∧ Catalog.books = rowOfBody Sample.env2 n s (body Catalog.postBooks)
    ∧ (Category.id Catalog.books ∉ (Category.id <$> [Sample.electronics]))
    ∧ (Category.name Catalog.books
         ∉ (Category.name <$> [Sample.electronics]))
    ∧ (Category.slug Catalog.books
         ∉ (Category.slug <$> [Sample.electronics]))
    ∧ Catalog.twoRows = [Sample.electronics] ++ [Catalog.books].
Proof.
  apply (accepted_creation_row (H:=asciiRuntime) Sample.env2
           Catalog.postBooks [Sample.electronics] Catalog.books
           Catalog.twoRows);
    first [compute_done | vm_compute; reflexivity].
Defined.

(** X18 at [PATCH /c1 { "name": "Books" }] on the table of two rows. *)
Lemma updateCategory_collision_sample :
  (updateCategory (H:=asciiRuntime) Sample.env2 Catalog.patchToBooks
     Catalog.twoRows).2 = Catalog.twoRows
  ∧ ((updateCategory (H:=asciiRuntime) Sample.env2 Catalog.patchToBooks
        Catalog.twoRows).1
     = res StatusCodes.CONFLICT
           (JError "Category with this name or slug already exists")
     ∨ (updateCategory (H:=asciiRuntime) Sample.env2 Catalog.patchToBooks
          Catalog.twoRows).1
       = res StatusCodes.INTERNAL_SERVER_ERROR
             (JError "Failed to update category")).
Proof.
  apply (updateCategory_collision (H:=asciiRuntime) Sample.env2
           Catalog.patchToBooks Catalog.twoRows (lit "c1")
           Sample.electronics Catalog.books);
    first [compute_done | vm_compute; reflexivity
          | left; vm_compute; reflexivity].
Defined.

(** X19 at a body whose name is the number 3. *)
Lemma non_string_name_answers_500_sample :
  createCategory (H:=asciiRuntime) Sample.env1 Sample.postMalformed []
  = (res StatusCodes.INTERNAL_SERVER_ERROR
         (JError "Failed to create category"), [])
  ∧ ∀ i old,
      params Sample.postMalformed !! "id" = Some i →
      readFault Sample.env1 = None →
      Prisma.findById i [] = Some old →
      updateCategory (H:=asciiRuntime) Sample.env1 Sample.postMalformed []
      = (res StatusCodes.INTERNAL_SERVER_ERROR
             (JError "Failed to update category"), []).
Proof.
  apply (non_string_name_answers_500 (H:=asciiRuntime) Sample.env1
           Sample.postMalformed []); vm_compute; reflexivity.
Defined.

(** X20 at [PATCH /c1 { "description": "Devices" }] and at [PATCH /c1 {}],
    both at time 200 on a row last written at time 100. *)
Lemma updateCategory_keeps_absent_fields_sample :
  (∃ i old,
      params Sample.byIdC1 !! "id" = Some i
      ∧ Prisma.findById i [Sample.electronics] = Some old
      ∧ (body Sample.byIdC1 = ∅ →
         Sample.electronics = old
         ∧ [Sample.electronics] = [Sample.electronics])
      ∧ Category.updatedAt Sample.electronics = 100)
  ∧ ∃ i old,
    params Catalog.patchDescription !! "id" = Some i
    ∧ Prisma.findById i [Sample.electronics] = Some old
    ∧ [Catalog.electronicsDescribed]
      = Prisma.replaceFirst i Catalog.electronicsDescribed [Sample.electronics]
    ∧ length [Catalog.electronicsDescribed] = length [Sample.electronics]
    ∧ (body Catalog.patchDescription !! "id" = None →
       Category.id Catalog.electronicsDescribed = Category.id old)
    ∧ (body Catalog.patchDescription !! "name" = None →
       Category.name Catalog.electronicsDescribed = Category.name old)
    ∧ (body Catalog.patchDescription !! "slug" = None →
       truthy (body Catalog.patchDescription !! "name") = false →
       Category.slug Catalog.electronicsDescribed = Category.slug old)
    ∧ (body Catalog.patchDescription !! "description" = None →
       Category.description Catalog.electronicsDescribed
       = Category.description old)
    ∧ (body Catalog.patchDescription !! "color" = None →
       Category.color Catalog.electronicsDescribed = Category.color old)
    ∧ (body Catalog.patchDescription !! "isActive" = None →
       Category.isActive Catalog.electronicsDescribed
       = Category.isActive old)
    ∧ (body Catalog.patchDescription !! "createdAt" = None →
       Category.createdAt Catalog.electronicsDescribed
       = Category.createdAt old)
    ∧ (body Catalog.patchDescription = ∅ →
       Catalog.electronicsDescribed = old
       ∧ [Catalog.electronicsDescribed] = [Sample.electronics])
    ∧ (body Catalog.patchDescription ≠ ∅ →
       body Catalog.patchDescription !! "updatedAt" = None →
       Category.updatedAt Catalog.electronicsDescribed = now Sample.env2)
    ∧ ∀ j, j ≠ i → j ≠ Category.id Catalog.electronicsDescribed →
           Prisma.findById j [Catalog.electronicsDescribed]
           = Prisma.findById j [Sample.electronics].
Proof.
  split.
  - destruct (updateCategory_keeps_absent_fields (H:=asciiRuntime)
                Sample.env2 Sample.byIdC1 [Sample.electronics]
                Sample.electronics [Sample.electronics])
      as (i & old & Hp & Hf & _ & _ & _ & _ & _ & _ & _ & _ & _ & Hempty & _).
    + vm_compute. reflexivity.
    + exists i, old. split; [exact Hp|]. split; [exact Hf|].
      split; [exact Hempty|reflexivity].
  - apply (updateCategory_keeps_absent_fields (H:=asciiRuntime) Sample.env2
             Catalog.patchDescription [Sample.electronics]
             Catalog.electronicsDescribed [Catalog.electronicsDescribed]).
    vm_compute. reflexivity.
Defined.

(** X22 at [PATCH /c1 { "description": "Devices" }]. *)
Lemma updateCategory_writes_present_fields_sample :
  (∀ n, body Catalog.patchDescription !! "name" = Some (JStr n) →
        Category.name Catalog.electronicsDescribed = n)
  ∧ (∀ t, body Catalog.patchDescription !! "description" = Some (JStr t) →
          Category.description Catalog.electronicsDescribed = Some t)
  ∧ (body Catalog.patchDescription !! "description" = Some JNull →
     Category.description Catalog.electronicsDescribed = None)
  ∧ (∀ c, body Catalog.patchDescription !! "color" = Some (JStr c) →
          Category.color Catalog.electronicsDescribed = Some c)
  ∧ (body Catalog.patchDescription !! "color" = Some JNull →
     Category.color Catalog.electronicsDescribed = None)
  ∧ (∀ a, body Catalog.patchDescription !! "isActive" = Some (JBool a) →
          Category.isActive Catalog.electronicsDescribed = a).
Proof.
  apply (updateCategory_writes_present_fields (H:=asciiRuntime) Sample.env2
           Catalog.patchDescription [Sample.electronics]
           Catalog.electronicsDescribed [Catalog.electronicsDescribed]).
  vm_compute. reflexivity.
Defined.
